(** * aiida_vasp: quantity selection and node composition

    A shallow embedding of [aiida_vasp/parsers/manager.py] and
    [aiida_vasp/parsers/node_composer.py], together with the properties of
    the quantity-selection pass and of the node composers.

    Python objects are modelled as follows.
    - Exceptions: the [result] monad ([Ok] / [Raise]).
    - Python values handed around by the parsers: [pyval].
    - A [dict] that is iterated over (insertion ordered): an association list
      with distinct keys, [pydict].
    - The parsed-quantity table, which is only read by key: a [gmap].
    - Objects of collaborators (the quantity registry, the calculation node,
      the logger, the host framework's data nodes): records of what this
      code observes of them or does to them. *)

From Stdlib Require Import PrimFloat Ascii.
From stdpp Require Import base option list strings gmap.

Set Warnings "-register-all".
Local Open Scope string_scope.
Local Open Scope list_scope.

(** ** Exceptions *)

Inductive exn :=
| AttributeError
| KeyError
| TypeError
| IndexError
| MissingEntryPointError.

Inductive result (A : Type) :=
| Ok (a : A)
| Raise (e : exn).
Arguments Ok {A} a.
Arguments Raise {A} e.

#[global] Instance result_ret : MRet result := λ A a, Ok a.
#[global] Instance result_bind : MBind result :=
  λ A B f m, match m with Ok a => f a | Raise e => Raise e end.
#[global] Instance result_fmap : FMap result :=
  λ A B f m, match m with Ok a => Ok (f a) | Raise e => Raise e end.

Definition raises {A} (m : result A) : Prop := ∃ e, m = Raise e.

(** ** Python values *)

Inductive pyval :=
| PNone
| PBool (b : bool)
| PInt (z : Z)
| PFloat (f : float)
| PStr (s : string)
| PList (l : list pyval)
| PDict (d : list (string * pyval))
| PKpoint (point : list pyval) (weight : pyval) (direct : bool).

(** [PKpoint] is a k-point object of the KPOINTS parser: [get_point()]
    (already as a list of coordinates), [get_weight()] and [get_direct()]. *)

Abbreviation pydict := (list (string * pyval)).

Definition is_none (v : pyval) : bool :=
  match v with PNone => true | _ => false end.

(** [d.get(k)], as an option: the key is missing or it holds a value. *)
Fixpoint dict_lookup (d : pydict) (k : string) : option pyval :=
  match d with
  | [] => None
  | (k', v) :: d' => if decide (k' = k) then Some v else dict_lookup d' k
  end.

(** [d[k] = v]: an existing key keeps its place, a new key goes last. *)
Fixpoint dict_set (d : pydict) (k : string) (v : pyval) : pydict :=
  match d with
  | [] => [(k, v)]
  | (k', v') :: d' =>
      if decide (k' = k) then (k', v) :: d' else (k', v') :: dict_set d' k v
  end.

(** [d.update(e)] *)
Definition dict_update (d e : pydict) : pydict :=
  foldl (λ acc kv, dict_set acc kv.1 kv.2) d e.

Definition dict_keys (d : pydict) : list string := d.*1.

(** [d[k]] *)
Definition dict_getitem (d : pydict) (k : string) : result pyval :=
  match dict_lookup d k with
  | Some v => Ok v
  | None => Raise KeyError
  end.

(** ** The collaborators of the parser manager *)

(** A quantity of the registry ([aiida_vasp.parsers.quantity]). *)
Record ParsableQuantity := {
  original_name : string;
  name : string;
  is_parsable : bool;
}.

(** The registry, as the three queries this code makes of it. *)
Record ParsableQuantities := {
  get_by_name : string → option ParsableQuantity;
  get_equivalent_quantities : string → list ParsableQuantity;
  get_missing_files : string → list string;
}.

(** The calculation node, as the two retrieve lists it declares. *)
Record CalcJobNode := {
  get_retrieve_temporary_list : list string;
  get_retrieve_list : list string;
}.

(** The three warnings of [_set_quantities_to_parse], by their format
    arguments. *)
Inductive warning :=
| NotImplementedWarning (quantity : string)
| MissingFilesWarning (quantity : string) (missing_files : list string)
| NotInRetrieveListWarning (not_in_retrieve_list : string).

(** A logger is the list of the warnings it has received. *)
Abbreviation logger := (list warning).

(** ** [ParserManager] *)

Module ParserManager.

Record t := {
  _node : option CalcJobNode;
  _vasp_parser_logger : option logger;
  _quantities_to_parse : list string;
}.

(** [ParserManager(node=None, vasp_parser_logger=None)] *)
Definition __init__ (node : option CalcJobNode) (vasp_parser_logger : option logger) : t :=
  {| _node := node; _vasp_parser_logger := vasp_parser_logger; _quantities_to_parse := [] |}.

Definition quantities_to_parse (self : t) : list string := _quantities_to_parse self.

Definition with_quantities_to_parse (self : t) (l : list string) : t :=
  {| _node := _node self; _vasp_parser_logger := _vasp_parser_logger self;
     _quantities_to_parse := l |}.

Definition with_logger (self : t) (l : logger) : t :=
  {| _node := _node self; _vasp_parser_logger := Some l;
     _quantities_to_parse := _quantities_to_parse self |}.

(** [list.remove]: the first occurrence goes. *)
Fixpoint list_remove (x : string) (l : list string) : list string :=
  match l with
  | [] => []
  | y :: l' => if decide (y = x) then l' else y :: list_remove x l'
  end.

Definition remove (self : t) (quantity : string) : t :=
  if decide (quantity ∈ _quantities_to_parse self)
  then with_quantities_to_parse self (list_remove quantity (_quantities_to_parse self))
  else self.

(** [self._vasp_parser_logger.warning(...)] *)
Definition log_warning (self : t) (w : warning) : result t :=
  match _vasp_parser_logger self with
  | None => Raise AttributeError
  | Some l => Ok (with_logger self (l ++ [w]))
  end.

(** [self._node], about to be asked for its retrieve lists *)
Definition the_node (self : t) : result CalcJobNode :=
  match _node self with
  | None => Raise AttributeError
  | Some n => Ok n
  end.

Fixpoint _add_quantity_to_parse (self : t) (quantities : list ParsableQuantity) : t * bool :=
  match quantities with
  | [] => (self, false)
  | quantity :: quantities' =>
      if is_parsable quantity
      then (with_quantities_to_parse self
              (_quantities_to_parse self ++ [original_name quantity]), true)
      else _add_quantity_to_parse self quantities'
  end.

(** The inner loop over [missing_files]: [not_in_retrieve_list] is
    assigned at every file that is not in the retrieve list. *)
Definition scan_missing_files (missing_files retrieve_list : list string) : option string :=
  foldl (λ not_in_retrieve_list item,
           if decide (item ∈ retrieve_list) then not_in_retrieve_list else Some item)
        None missing_files.

(** One turn of the loop over the requested names. *)
Definition visit_quantity_name (quantities : ParsableQuantities) (self : t)
    (quantity_name : string) : result t :=
  match get_by_name quantities quantity_name with
  | None => log_warning self (NotImplementedWarning quantity_name)
  | Some _ =>
      let '(self, success) :=
        _add_quantity_to_parse self (get_equivalent_quantities quantities quantity_name) in
      if success then Ok self
      else
        let missing_files := get_missing_files quantities quantity_name in
        node ← the_node self;
        let retrieve_list := get_retrieve_temporary_list node ++ get_retrieve_list node in
        let not_in_retrieve_list := scan_missing_files missing_files retrieve_list in
        self ← log_warning self (MissingFilesWarning quantity_name missing_files);
        match not_in_retrieve_list with
        | None => Ok self
        | Some item => log_warning self (NotInRetrieveListWarning item)
        end
  end.

Fixpoint visit_quantity_names (quantities : ParsableQuantities) (self : t)
    (quantities_to_parse : list string) : result t :=
  match quantities_to_parse with
  | [] => Ok self
  | quantity_name :: rest =>
      self ← visit_quantity_name quantities self quantity_name;
      visit_quantity_names quantities self rest
  end.

(** [quantities_to_parse] and [quantities] default to [None] in [setup]:
    iterating [None] is a [TypeError], asking [None] for a quantity an
    [AttributeError]. *)
Definition _set_quantities_to_parse (self : t) (quantities_to_parse : option (list string))
    (quantities : option ParsableQuantities) : result t :=
  let self := with_quantities_to_parse self [] in
  match quantities_to_parse, quantities with
  | None, _ => Raise TypeError
  | Some [], None => Ok self
  | Some (_ :: _), None => Raise AttributeError
  | Some names, Some registry => visit_quantity_names registry self names
  end.

Definition setup (self : t) (quantities_to_parse : option (list string))
    (quantities : option ParsableQuantities) : result t :=
  _set_quantities_to_parse self quantities_to_parse quantities.

End ParserManager.

(** ** Subscripting, iteration and attribute access on Python values *)

(** [v[k]] for a string [k]: only a dict takes a string subscript. *)
Definition py_getitem (v : pyval) (k : string) : result pyval :=
  match v with
  | PDict d => dict_getitem d k
  | _ => Raise TypeError
  end.

(** [v.get(k)] *)
Definition py_get (v : pyval) (k : string) : result pyval :=
  match v with
  | PDict d => Ok (default PNone (dict_lookup d k))
  | _ => Raise AttributeError
  end.

(** [v.items()] *)
Definition py_items (v : pyval) : result pydict :=
  match v with
  | PDict d => Ok d
  | _ => Raise AttributeError
  end.

Fixpoint str_chars (s : string) : list pyval :=
  match s with
  | EmptyString => []
  | String c s' => PStr (String c EmptyString) :: str_chars s'
  end.

(** [for x in v] *)
Definition py_iter (v : pyval) : result (list pyval) :=
  match v with
  | PList l => Ok l
  | PDict d => Ok (PStr <$> dict_keys d)
  | PStr s => Ok (str_chars s)
  | _ => Raise TypeError
  end.

(** [v[0]] *)
Definition py_first (v : pyval) : result pyval :=
  match v with
  | PList (x :: _) => Ok x
  | PList [] => Raise IndexError
  | PStr (String c _) => Ok (PStr (String c EmptyString))
  | PStr EmptyString => Raise IndexError
  | PDict _ => Raise KeyError
  | _ => Raise TypeError
  end.

(** [mode == 'explicit'] and the like *)
Definition py_eq_str (v : pyval) (s : string) : bool :=
  match v with
  | PStr s' => bool_decide (s' = s)
  | _ => false
  end.

Definition kpoint_get_direct (v : pyval) : result bool :=
  match v with PKpoint _ _ direct => Ok direct | _ => Raise AttributeError end.

(** [kpoint.get_point().tolist()] *)
Definition kpoint_get_point_tolist (v : pyval) : result pyval :=
  match v with PKpoint point _ _ => Ok (PList point) | _ => Raise AttributeError end.

Definition kpoint_get_weight (v : pyval) : result pyval :=
  match v with PKpoint _ weight _ => Ok weight | _ => Raise AttributeError end.

(** [str.replace(a, b)] for one-character [a] and [b] *)
Fixpoint str_replace (a b : ascii) (s : string) : string :=
  match s with
  | EmptyString => EmptyString
  | String c s' => String (if decide (c = a) then b else c) (str_replace a b s')
  end.

(** ** Data nodes of the host framework *)

(** The class [get_data_class] hands back for an entry point name. *)
Inductive DataClass := DataFactory (entry_point : string).

(** A data node is the class it was instantiated from, the [file] keyword
    of the instantiation when there is one, and the setter calls made on
    it so far, oldest first. *)
Inductive data_node :=
| DataNode (cls : DataClass) (file : option pyval) (calls : list call)
with call :=
| update_dict (d : pydict)
| set_cell (cell : pyval)
| append_atom (position symbols name : pyval)
| set_array (key : string) (value : pyval)
| set_attribute (key : string) (value : pyval)
| set_kpoints (kpoint_list : list pyval) (weights : pyval) (cartesian : bool)
| set_kpoints_mesh (mesh offset : pyval)
| set_kpointsdata (kpointsdata : data_node)
| set_bands (bands occupations : pyval).

Definition node_cls (n : data_node) : DataClass := let 'DataNode c _ _ := n in c.
Definition node_file (n : data_node) : option pyval := let 'DataNode _ f _ := n in f.
Definition node_calls (n : data_node) : list call := let 'DataNode _ _ cs := n in cs.

(** [node.method(...)] *)
Definition invoke (n : data_node) (c : call) : data_node :=
  let 'DataNode cls file calls := n in DataNode cls file (calls ++ [c]).

(** [aiida_vasp.utils.aiida_utils.get_data_class] is a parameter of the
    composers: it maps a node type to a class or raises. *)
Abbreviation data_class_getter := (string → result DataClass).

(** [get_data_class(node_type)()] *)
Definition instantiate (get_data_class : data_class_getter) (node_type : string)
    : result data_node :=
  cls ← get_data_class node_type; Ok (DataNode cls None []).

(** [get_data_class(node_type)(file=value)] *)
Definition instantiate_file (get_data_class : data_class_getter) (node_type : string)
    (value : pyval) : result data_node :=
  cls ← get_data_class node_type; Ok (DataNode cls (Some value) []).

(** What the host framework reads back from the calls: the attributes of
    a dict node ... *)
Definition get_dict (n : data_node) : pydict :=
  foldl (λ attrs c, match c with update_dict d => dict_update attrs d | _ => attrs end)
        [] (node_calls n).

(** ... the mesh and offset of a k-points node, when the last k-points
    call on it set a mesh ... *)
Definition get_kpoints_mesh (n : data_node) : option (pyval * pyval) :=
  foldl (λ acc c, match c with
                  | set_kpoints_mesh mesh offset => Some (mesh, offset)
                  | set_kpoints _ _ _ => None
                  | _ => acc
                  end) None (node_calls n).

(** ... the k-points node a bands node was given ... *)
Definition get_kpointsdata (n : data_node) : option data_node :=
  foldl (λ acc c, match c with set_kpointsdata k => Some k | _ => acc end)
        None (node_calls n).

(** ... and its bands and occupations. *)
Definition get_bands (n : data_node) : option (pyval * pyval) :=
  foldl (λ acc c, match c with set_bands b o => Some (b, o) | _ => acc end)
        None (node_calls n).

(** ** Collecting the inputs of a composer *)

(** Lookup in a constant table keyed by strings. *)
Fixpoint table_get {V} (table : list (string * V)) (key : string) : option V :=
  match table with
  | [] => None
  | (k, v) :: table' => if decide (k = key) then Some v else table_get table' key
  end.

Definition NODES_TYPES : list (string * list string) :=
  [ ("dict", ["total_energies"; "maximum_force"; "maximum_stress"; "symmetries";
              "magnetization"; "site_magnetization"; "notifications"]);
    ("array.kpoints", ["kpoints"]);
    ("structure", ["structure"]);
    ("array.trajectory", ["trajectory"]);
    ("array.bands", ["eigenvalues"; "kpoints"; "occupancies"]);
    ("vasp.chargedensity", ["chgcar"]);
    ("vasp.wavefun", ["wavecar"]);
    ("array", []) ].

(** [NODES_TYPES.get(node_type)] *)
Definition NODES_TYPES_get (node_type : string) : option (list string) :=
  table_get NODES_TYPES node_type.

(** [parsed_quantities.get(key)]: [None] for a missing key. *)
Definition parsed_get (parsed_quantities : gmap string pyval) (key : string) : pyval :=
  default PNone (parsed_quantities !! key).

(** [quantity.name], where [quantity] may be [None]. *)
Definition quantity_name_attr (quantity : option ParsableQuantity) : result string :=
  match quantity with
  | Some q => Ok (name q)
  | None => Raise AttributeError
  end.

(** The loop of [_get_alternative_parsed_quantity] over the equivalent
    quantities, threading [inputs]. *)
Fixpoint alternative_loop (quantity : option ParsableQuantity)
    (parsed_quantities : gmap string pyval) (equivalents : list ParsableQuantity)
    (inputs : pydict) : result pydict :=
  match equivalents with
  | [] => Ok inputs
  | parsable_quantity :: rest =>
      let original_name := original_name parsable_quantity in
      if decide (is_Some (parsed_quantities !! original_name))
      then
        key ← quantity_name_attr quantity;
        alternative_loop quantity parsed_quantities rest
          (dict_set inputs key (parsed_get parsed_quantities original_name))
      else alternative_loop quantity parsed_quantities rest inputs
  end.

Definition _get_alternative_parsed_quantity (quantity_name : string)
    (quantity : option ParsableQuantity) (parsable_quantities : ParsableQuantities)
    (parsed_quantities : gmap string pyval) : result pydict :=
  alternative_loop quantity parsed_quantities
    (get_equivalent_quantities parsable_quantities quantity_name) [].

(** One turn of the loop of [_collect_quantity_data]. *)
Definition collect_quantity (parsable_quantities : ParsableQuantities)
    (parsed_quantities : gmap string pyval) (inputs : pydict) (quantity_name : string)
    : result pydict :=
  let quantity := get_by_name parsable_quantities quantity_name in
  let parsed_quantity := parsed_get parsed_quantities quantity_name in
  if is_none parsed_quantity
  then
    alternative ← _get_alternative_parsed_quantity quantity_name quantity
                    parsable_quantities parsed_quantities;
    Ok (dict_update inputs alternative)
  else
    key ← quantity_name_attr quantity;
    Ok (dict_set inputs key parsed_quantity).

Fixpoint collect_loop (parsable_quantities : ParsableQuantities)
    (parsed_quantities : gmap string pyval) (quantity_names : list string)
    (inputs : pydict) : result pydict :=
  match quantity_names with
  | [] => Ok inputs
  | quantity_name :: rest =>
      inputs ← collect_quantity parsable_quantities parsed_quantities inputs quantity_name;
      collect_loop parsable_quantities parsed_quantities rest inputs
  end.

(** The names the loop runs over; iterating [None] is a [TypeError]. *)
Definition resolve_quantity_names (node_type : string)
    (quantity_names : option (list string)) : result (list string) :=
  match quantity_names with
  | Some names => Ok names
  | None =>
      match NODES_TYPES_get node_type with
      | Some names => Ok names
      | None => Raise TypeError
      end
  end.

Definition _collect_quantity_data (parsable_quantities : ParsableQuantities)
    (parsed_quantities : gmap string pyval) (node_type : string)
    (quantity_names : option (list string)) : result pydict :=
  _quantity_names ← resolve_quantity_names node_type quantity_names;
  collect_loop parsable_quantities parsed_quantities _quantity_names [].

(** A file parser: its [parsable_items] and its [get_quantity]. *)
Record FileParser := {
  parsable_items : pydict;
  get_quantity : string → pyval;
}.

(** The constructor of the registry and its [add_parsable_quantity]
    ([aiida_vasp.parsers.quantity]) are parameters. *)
Record quantity_module := {
  new_ParsableQuantities : ParsableQuantities;
  add_parsable_quantity : ParsableQuantities → string → pyval → ParsableQuantities;
}.

Definition _get_quantities_from_file_parser (Q : quantity_module) (file_parser : FileParser)
    : ParsableQuantities * gmap string pyval :=
  foldl (λ acc item,
           let '(parsable_quantities, parsed_quantities) := acc in
           let '(key, value) := item in
           (add_parsable_quantity Q parsable_quantities key value,
            <[key := get_quantity file_parser key]> parsed_quantities))
        (new_ParsableQuantities Q, ∅) (parsable_items file_parser).

(** The registry and the table [get_node_composer_inputs] goes on with. *)
Definition select_quantities (Q : quantity_module)
    (parsable_quantities : ParsableQuantities) (parsed_quantities : gmap string pyval)
    (file_parser : option FileParser) : ParsableQuantities * gmap string pyval :=
  match file_parser with
  | None => (parsable_quantities, parsed_quantities)
  | Some fp => _get_quantities_from_file_parser Q fp
  end.

Definition get_node_composer_inputs (Q : quantity_module)
    (parsable_quantities : ParsableQuantities) (parsed_quantities : gmap string pyval)
    (file_parser : option FileParser) (node_type : string)
    (quantity_names : option (list string)) : result pydict :=
  let '(_parsable_quantities, _parsed_quantities) :=
    select_quantities Q parsable_quantities parsed_quantities file_parser in
  _collect_quantity_data _parsable_quantities _parsed_quantities node_type quantity_names.

(** ** [NodeComposer] *)

Module NodeComposer.

(** [for x in xs: body], for a body that may raise, threading the node. *)
Fixpoint for_each {A} (body : data_node → A → result data_node) (xs : list A)
    (n : data_node) : result data_node :=
  match xs with
  | [] => Ok n
  | x :: xs' => n' ← body n x; for_each body xs' n'
  end.

Definition _compose_dict (get_data_class : data_class_getter) (node_type : string)
    (inputs : pydict) : result data_node :=
  node ← instantiate get_data_class node_type;
  Ok (invoke node (update_dict inputs)).

Definition _compose_structure (get_data_class : data_class_getter) (node_type : string)
    (inputs : pydict) : result data_node :=
  node ← instantiate get_data_class node_type;
  for_each (λ node key,
      value ← dict_getitem inputs key;
      unitcell ← py_getitem value "unitcell";
      let node := invoke node (set_cell unitcell) in
      sites ← py_getitem value "sites";
      sites ← py_iter sites;
      for_each (λ node site,
          position ← py_getitem site "position";
          symbols ← py_getitem site "symbol";
          name ← py_getitem site "kind_name";
          Ok (invoke node (append_atom position symbols name)))
        sites node)
    (dict_keys inputs) node.

Definition _compose_array (get_data_class : data_class_getter) (node_type : string)
    (inputs : pydict) : result data_node :=
  node ← instantiate get_data_class node_type;
  for_each (λ node item,
      value ← dict_getitem inputs item;
      items ← py_items value;
      for_each (λ node kv, Ok (invoke node (set_array kv.1 kv.2))) items node)
    (dict_keys inputs) node.

(** The two single-file composers: [node] starts as [None] and is
    rebound at every key. *)
Fixpoint single_file_loop (get_data_class : data_class_getter) (node_type : string)
    (inputs : pydict) (keys : list string) (node : option data_node) : result (option data_node) :=
  match keys with
  | [] => Ok node
  | key :: keys' =>
      value ← dict_getitem inputs key;
      node' ← instantiate_file get_data_class node_type value;
      single_file_loop get_data_class node_type inputs keys' (Some node')
  end.

Definition _compose_vasp_wavefun (get_data_class : data_class_getter) (node_type : string)
    (inputs : pydict) : result (option data_node) :=
  single_file_loop get_data_class node_type inputs (dict_keys inputs) None.

Definition _compose_vasp_chargedensity (get_data_class : data_class_getter)
    (node_type : string) (inputs : pydict) : result (option data_node) :=
  single_file_loop get_data_class node_type inputs (dict_keys inputs) None.

(** The loop over [kpoints] in the explicit branch: the two lists grow
    together. *)
Fixpoint explicit_loop (kpoints : list pyval) (kpoint_list weights : list pyval)
    : result (list pyval * list pyval) :=
  match kpoints with
  | [] => Ok (kpoint_list, weights)
  | kpoint :: rest =>
      point ← kpoint_get_point_tolist kpoint;
      weight ← kpoint_get_weight kpoint;
      explicit_loop rest (kpoint_list ++ [point]) (weights ++ [weight])
  end.

Definition kpoints_explicit (node : data_node) (value : pyval) : result data_node :=
  kpoints ← py_get value "points";
  first ← py_first kpoints;
  direct ← kpoint_get_direct first;
  let cartesian := negb direct in
  kpoints ← py_iter kpoints;
  '(kpoint_list, weights) ← explicit_loop kpoints [] [];
  first_weight ← py_first (PList weights);
  let weights := if is_none first_weight then PNone else PList weights in
  Ok (invoke node (set_kpoints kpoint_list weights cartesian)).

Definition kpoints_automatic (node : data_node) (value : pyval) : result data_node :=
  mesh ← py_get value "divisions";
  shifts ← py_get value "shifts";
  Ok (invoke node (set_kpoints_mesh mesh shifts)).

Definition _compose_array_kpoints (get_data_class : data_class_getter) (node_type : string)
    (inputs : pydict) : result data_node :=
  node ← instantiate get_data_class node_type;
  for_each (λ node key,
      value ← dict_getitem inputs key;
      mode ← py_getitem value "mode";
      node ← (if py_eq_str mode "explicit" then kpoints_explicit node value else Ok node);
      if py_eq_str mode "automatic" then kpoints_automatic node value else Ok node)
    (dict_keys inputs) node.

Definition _compose_array_bands (get_data_class : data_class_getter) (node_type : string)
    (inputs : pydict) : result data_node :=
  node ← instantiate get_data_class node_type;
  kpoints_value ← dict_getitem inputs "kpoints";
  kpoints ← _compose_array_kpoints get_data_class "array.kpoints" [("kpoints", kpoints_value)];
  let node := invoke node (set_kpointsdata kpoints) in
  eigenvalues ← dict_getitem inputs "eigenvalues";
  occupancies ← dict_getitem inputs "occupancies";
  Ok (invoke node (set_bands eigenvalues occupancies)).

Definition _compose_array_trajectory (get_data_class : data_class_getter)
    (node_type : string) (inputs : pydict) : result data_node :=
  node ← instantiate get_data_class node_type;
  for_each (λ node item,
      value ← dict_getitem inputs item;
      items ← py_items value;
      for_each (λ node kv,
          if decide (kv.1 = "symbols")
          then Ok (invoke node (set_attribute kv.1 kv.2))
          else Ok (invoke node (set_array kv.1 kv.2)))
        items node)
    (dict_keys inputs) node.

(** What a composer is called with and what it returns: a node or [None]. *)
Abbreviation composer := (data_class_getter → string → pydict → result (option data_node)).

Definition returning_node (f : data_class_getter → string → pydict → result data_node)
    : composer :=
  λ get_data_class node_type inputs, Some <$> f get_data_class node_type inputs.

(** The attributes of the class whose names start with [_compose_]. *)
Definition composers : list (string * composer) :=
  [ ("_compose_dict", returning_node _compose_dict);
    ("_compose_structure", returning_node _compose_structure);
    ("_compose_array", returning_node _compose_array);
    ("_compose_vasp_wavefun", _compose_vasp_wavefun);
    ("_compose_vasp_chargedensity", _compose_vasp_chargedensity);
    ("_compose_array_bands", returning_node _compose_array_bands);
    ("_compose_array_kpoints", returning_node _compose_array_kpoints);
    ("_compose_array_trajectory", returning_node _compose_array_trajectory) ].

(** [getattr(cls, attr)] for such a name *)
Definition getattr (attr : string) : result composer :=
  match table_get composers attr with
  | Some method => Ok method
  | None => Raise AttributeError
  end.

Definition compose (get_data_class : data_class_getter) (node_type : string)
    (inputs : pydict) : result (option data_node) :=
  method ← getattr ("_compose_" +:+ str_replace "." "_" node_type);
  method get_data_class node_type inputs.

End NodeComposer.

(** * Sample data *)

Module Sample.

Definition structure : ParsableQuantity :=
  {| original_name := "structure"; name := "structure"; is_parsable := false |}.
Definition poscar_structure : ParsableQuantity :=
  {| original_name := "poscar-structure"; name := "structure"; is_parsable := true |}.
Definition contcar_structure : ParsableQuantity :=
  {| original_name := "contcar-structure"; name := "structure"; is_parsable := true |}.
Definition kpoints : ParsableQuantity :=
  {| original_name := "kpoints"; name := "kpoints"; is_parsable := true |}.
Definition eigenvalues : ParsableQuantity :=
  {| original_name := "eigenvalues"; name := "eigenvalues"; is_parsable := false |}.

Definition quantities : list (string * ParsableQuantity) :=
  [ ("structure", structure); ("poscar-structure", poscar_structure);
    ("contcar-structure", contcar_structure); ("kpoints", kpoints);
    ("eigenvalues", eigenvalues) ].

Definition equivalents : list (string * list ParsableQuantity) :=
  [ ("structure", [structure; poscar_structure; contcar_structure]);
    ("poscar-structure", [structure; poscar_structure; contcar_structure]);
    ("contcar-structure", [structure; poscar_structure; contcar_structure]);
    ("kpoints", [kpoints]);
    ("eigenvalues", [eigenvalues]) ].

Definition missing_files : list (string * list string) :=
  [ ("eigenvalues", ["vasprun.xml"; "EIGENVAL"]) ].

Definition registry : ParsableQuantities :=
  {| get_by_name := table_get quantities;
     get_equivalent_quantities := λ q, default [] (table_get equivalents q);
     get_missing_files := λ q, default [] (table_get missing_files q) |}.

Definition calc_node : CalcJobNode :=
  {| get_retrieve_temporary_list := []; get_retrieve_list := ["OUTCAR"; "CONTCAR"] |}.

Definition manager : ParserManager.t :=
  ParserManager.__init__ (Some calc_node) (Some []).

(** The data classes of the eight supported node types. *)
Definition get_data_class : data_class_getter :=
  λ node_type,
    if decide (node_type ∈ NODES_TYPES.*1) then Ok (DataFactory node_type)
    else Raise MissingEntryPointError.

Definition mesh222 : pyval :=
  PDict [ ("mode", PStr "automatic");
          ("divisions", PList [PInt 2; PInt 2; PInt 2]);
          ("shifts", PList [PInt 0; PInt 0; PInt 0]) ].

Definition bands_inputs : pydict :=
  [ ("eigenvalues", PList [PList [PFloat (-1)%float; PFloat 2%float]]);
    ("kpoints", mesh222);
    ("occupancies", PList [PList [PFloat 1%float; PFloat 0%float]]) ].

Definition energies : pydict :=
  [ ("total_energies", PDict [("energy", PFloat (-1)%float)]) ].

(** A registry constructor to run the file-parser path with: every item
    becomes a parsable quantity of its own name, equivalent to itself only. *)
Definition registry_builder : quantity_module :=
  {| new_ParsableQuantities :=
       {| get_by_name := λ _, None;
          get_equivalent_quantities := λ _, [];
          get_missing_files := λ _, [] |};
     add_parsable_quantity := λ registry key _,
       let quantity := {| original_name := key; name := key; is_parsable := true |} in
       {| get_by_name := λ q,
            if decide (q = key) then Some quantity else get_by_name registry q;
          get_equivalent_quantities := λ q,
            if decide (q = key) then [quantity] else get_equivalent_quantities registry q;
          get_missing_files := get_missing_files registry |} |}.

(** A table in which the POSCAR structure has an entry that holds [None]. *)
Definition parsed_null : gmap string pyval := {[ "poscar-structure" := PNone ]}.

(** A table in which two equivalents of ["structure"] have a value. *)
Definition parsed_two : gmap string pyval :=
  {[ "poscar-structure" := PStr "from POSCAR";
     "contcar-structure" := PStr "from CONTCAR" ]}.

End Sample.

(** * Notions used in the statements *)

Definition not_parsable (q : ParsableQuantity) : Prop := is_parsable q = false.

(** Two managers that differ at most in what their loggers have received. *)
Definition same_up_to_log (s1 s2 : ParserManager.t) : Prop :=
  ParserManager._node s1 = ParserManager._node s2 ∧
  ParserManager._quantities_to_parse s1 = ParserManager._quantities_to_parse s2 ∧
  (is_Some (ParserManager._vasp_parser_logger s1) ↔
   is_Some (ParserManager._vasp_parser_logger s2)).

Definition result_rel {A} (R : A → A → Prop) (r1 r2 : result A) : Prop :=
  match r1, r2 with
  | Ok a1, Ok a2 => R a1 a2
  | Raise e1, Raise e2 => e1 = e2
  | _, _ => False
  end.

(** The warnings a manager's logger holds. *)
Definition logged (self : ParserManager.t) : list warning :=
  default [] (ParserManager._vasp_parser_logger self).

(** The name the selection pass takes for a requested name: none for a
    name the registry does not know, else the original name of the first
    parsable quantity among the equivalents, if there is one. *)
Definition chosen (registry : ParsableQuantities) (quantity_name : string) : list string :=
  match get_by_name registry quantity_name with
  | None => []
  | Some _ =>
      match List.find is_parsable (get_equivalent_quantities registry quantity_name) with
      | Some quantity => [original_name quantity]
      | None => []
      end
  end.

(** [parsed] has an entry for the original name of [quantity]. *)
Definition has_entry (parsed : gmap string pyval) (quantity : ParsableQuantity) : Prop :=
  is_Some (parsed !! original_name quantity).

(** The last equivalent, in the order of the registry, with an entry. *)
Definition last_with_entry (parsed : gmap string pyval)
    (equivalents : list ParsableQuantity) : option ParsableQuantity :=
  last (filter (has_entry parsed) equivalents).

(** What one required name contributes to the inputs, if anything. *)
Definition contribution (registry : ParsableQuantities) (parsed : gmap string pyval)
    (quantity_name : string) : option pyval :=
  if is_none (parsed_get parsed quantity_name)
  then (λ e, parsed_get parsed (original_name e)) <$>
         last_with_entry parsed (get_equivalent_quantities registry quantity_name)
  else Some (parsed_get parsed quantity_name).

(** C1 as the specification words it, for one registry, table and node
    type: a required quantity is in the inputs only if its own name or an
    equivalent has a value other than [None]. *)
Definition included_only_with_value (registry : ParsableQuantities)
    (parsed : gmap string pyval) (node_type : string) : Prop :=
  ∀ Q inputs names quantity_name quantity,
    get_node_composer_inputs Q registry parsed None node_type None = Ok inputs →
    NODES_TYPES_get node_type = Some names →
    quantity_name ∈ names →
    get_by_name registry quantity_name = Some quantity →
    is_Some (dict_lookup inputs (name quantity)) →
    parsed_get parsed quantity_name ≠ PNone ∨
    ∃ e, e ∈ get_equivalent_quantities registry quantity_name ∧
         parsed_get parsed (original_name e) ≠ PNone.

(** C2 as the specification words it: with no value of its own, the
    value of any equivalent that has one is what the inputs hold. *)
Definition any_equivalent_value_is_used (registry : ParsableQuantities)
    (parsed : gmap string pyval) (node_type : string) : Prop :=
  ∀ Q inputs names quantity_name quantity e value,
    get_node_composer_inputs Q registry parsed None node_type None = Ok inputs →
    NODES_TYPES_get node_type = Some names →
    quantity_name ∈ names →
    get_by_name registry quantity_name = Some quantity →
    parsed_get parsed quantity_name = PNone →
    e ∈ get_equivalent_quantities registry quantity_name →
    parsed !! original_name e = Some value → value ≠ PNone →
    dict_lookup inputs (name quantity) = Some value.

(** The tags the specification lists as supported: the keys of
    [NODES_TYPES]. *)
Definition supported_tags : list string := NODES_TYPES.*1.

(** The other spellings that [compose] takes to the same methods. *)
Definition underscore_spellings : list string :=
  [ "array_kpoints"; "array_trajectory"; "array_bands";
    "vasp_chargedensity"; "vasp_wavefun" ].

(** The method names of [NodeComposer] after the [_compose_] prefix. *)
Definition method_suffixes : list string :=
  [ "dict"; "structure"; "array"; "vasp_wavefun"; "vasp_chargedensity";
    "array_bands"; "array_kpoints"; "array_trajectory" ].

(** C6 as the specification words it. *)
Definition unsupported_tags_raise : Prop :=
  ∀ get_data_class node_type inputs,
    node_type ∉ supported_tags →
    raises (NodeComposer.compose get_data_class node_type inputs).

(** The calls a composer makes, in one go. *)
Definition invoke_all (n : data_node) (cs : list call) : data_node :=
  foldl invoke n cs.

(** [inputs] whose values are all dictionaries. *)
Definition as_tables (tables : list (string * pydict)) : pydict :=
  (λ t, (t.1, PDict t.2)) <$> tables.

(** The calls of the array composer for the entries of one item ... *)
Definition array_calls (items : pydict) : list call :=
  (λ kv, set_array kv.1 kv.2) <$> items.

(** ... and those of the trajectory composer. *)
Definition trajectory_calls (items : pydict) : list call :=
  (λ kv, if decide (kv.1 = "symbols") then set_attribute kv.1 kv.2
         else set_array kv.1 kv.2) <$> items.

(** [site] is a dictionary from which [append_atom] gets its arguments. *)
Definition site_atom (site : pyval) (c : call) : Prop :=
  ∃ position symbols name,
    py_getitem site "position" = Ok position ∧
    py_getitem site "symbol" = Ok symbols ∧
    py_getitem site "kind_name" = Ok name ∧
    c = append_atom position symbols name.

(** A k-point object from its coordinates, weight and direct flag. *)
Definition kpoint_of (k : list pyval * pyval * bool) : pyval :=
  PKpoint k.1.1 k.1.2 k.2.

(** * Properties *)

(** ** The result monad *)

Lemma bind_Ok {A B} (f : A → result B) (a : A) : (Ok a ≫= f) = f a.
Proof. reflexivity. Qed.

Lemma bind_Raise {A B} (f : A → result B) (e : exn) : (Raise e ≫= f) = Raise e.
Proof. reflexivity. Qed.

Lemma bind_Ok_inv {A B} (f : A → result B) (m : result A) (b : B) :
  m ≫= f = Ok b → ∃ a, m = Ok a ∧ f a = Ok b.
Proof. destruct m as [a|e]; [eauto | discriminate]. Qed.

Ltac inv_bind H :=
  let a := fresh "a" in
  let Ha := fresh "Ha" in
  apply bind_Ok_inv in H as (a & Ha & H).

(** ** The parser manager *)

Section manager.
Import ParserManager.

Implicit Types (self : ParserManager.t) (registry : ParsableQuantities).

Lemma _add_quantity_to_parse_none self quantities :
  Forall not_parsable quantities →
  _add_quantity_to_parse self quantities = (self, false).
Proof.
  induction 1 as [|q l Hq _ IH]; simpl; [done|].
  by rewrite Hq.
Qed.

Lemma _add_quantity_to_parse_first self before quantity after :
  Forall not_parsable before →
  is_parsable quantity = true →
  _add_quantity_to_parse self (before ++ quantity :: after) =
    (with_quantities_to_parse self (_quantities_to_parse self ++ [original_name quantity]),
     true).
Proof.
  intros Hb Hq. induction Hb as [|q l Hnp _ IH]; simpl.
  - by rewrite Hq.
  - by rewrite Hnp.
Qed.

(** Either no equivalent is parsable or there is a first parsable one. *)
Lemma first_parsable_split (quantities : list ParsableQuantity) :
  Forall not_parsable quantities ∨
  ∃ before quantity after,
    quantities = before ++ quantity :: after ∧
    Forall not_parsable before ∧ is_parsable quantity = true.
Proof.
  induction quantities as [|q l IH]; [by left|].
  destruct (is_parsable q) eqn:Hq.
  - right. exists [], q, l. by repeat split.
  - destruct IH as [IH | (b & x & a & -> & Hb & Hx)].
    + left. by constructor.
    + right. exists (q :: b), x, a. repeat split; [|done]. by constructor.
Qed.

Lemma visit_quantity_names_app registry self names1 names2 :
  visit_quantity_names registry self (names1 ++ names2) =
  visit_quantity_names registry self names1 ≫= λ self',
    visit_quantity_names registry self' names2.
Proof.
  revert self. induction names1 as [|q l IH]; intros self; simpl; [done|].
  destruct (visit_quantity_name registry self q) as [s|e]; simpl; [apply IH | done].
Qed.

Lemma same_up_to_log_refl self : same_up_to_log self self.
Proof. by split_and!. Qed.

Lemma same_up_to_log_warning self1 self2 w :
  same_up_to_log self1 self2 →
  result_rel same_up_to_log (log_warning self1 w) (log_warning self2 w).
Proof.
  intros (Hn & Hq & Hl). unfold log_warning.
  destruct (_vasp_parser_logger self1) as [l1|] eqn:E1,
           (_vasp_parser_logger self2) as [l2|] eqn:E2; simpl.
  - repeat split; simpl; eauto.
  - destruct Hl as [Hl _]. destruct Hl as [? ?]; [eauto | done].
  - destruct Hl as [_ Hl]. destruct Hl as [? ?]; [eauto | done].
  - done.
Qed.

Lemma same_up_to_log_add self1 self2 quantities :
  same_up_to_log self1 self2 →
  same_up_to_log (_add_quantity_to_parse self1 quantities).1
                 (_add_quantity_to_parse self2 quantities).1 ∧
  (_add_quantity_to_parse self1 quantities).2 = (_add_quantity_to_parse self2 quantities).2.
Proof.
  intros (Hn & Hq & Hl). induction quantities as [|q l IH]; simpl.
  - by split_and!.
  - destruct (is_parsable q); [|done]. simpl. rewrite Hq. by split_and!.
Qed.

Lemma same_up_to_log_visit registry self1 self2 quantity_name :
  same_up_to_log self1 self2 →
  result_rel same_up_to_log (visit_quantity_name registry self1 quantity_name)
                            (visit_quantity_name registry self2 quantity_name).
Proof.
  intros H. unfold visit_quantity_name.
  destruct (get_by_name registry quantity_name) as [quantity|].
  2: { by apply same_up_to_log_warning. }
  pose proof (same_up_to_log_add self1 self2
                (get_equivalent_quantities registry quantity_name) H) as [Ha Hb].
  destruct (_add_quantity_to_parse self1 _) as [s1 b1],
           (_add_quantity_to_parse self2 _) as [s2 b2]; simpl in *. subst b2.
  destruct b1; [done|].
  pose proof (same_up_to_log_warning s1 s2
                (MissingFilesWarning quantity_name (get_missing_files registry quantity_name))
                Ha) as Hw.
  destruct Ha as (Hn & Hq & Hl). unfold the_node. rewrite <-Hn.
  destruct (_node s1) as [n|]; simpl; [|done].
  destruct (log_warning s1 _) as [t1|e1], (log_warning s2 _) as [t2|e2];
    simpl in *; try done.
  destruct (scan_missing_files _ _); [|done].
  by apply same_up_to_log_warning.
Qed.

Lemma same_up_to_log_visit_names registry names self1 self2 :
  same_up_to_log self1 self2 →
  result_rel same_up_to_log (visit_quantity_names registry self1 names)
                            (visit_quantity_names registry self2 names).
Proof.
  revert self1 self2. induction names as [|q l IH]; intros self1 self2 H; simpl; [done|].
  pose proof (same_up_to_log_visit registry self1 self2 q H) as Hv.
  destruct (visit_quantity_name registry self1 q) as [t1|e1],
           (visit_quantity_name registry self2 q) as [t2|e2]; simpl in *; try done.
  by apply IH.
Qed.

(** A logger neither appears nor disappears, and it only grows. *)
Lemma log_warning_logged self self' w0 w :
  log_warning self w0 = Ok self' →
  is_Some (_vasp_parser_logger self') ∧
  (w ∈ logged self ∨ w = w0 → w ∈ logged self').
Proof.
  unfold log_warning, logged. destruct (_vasp_parser_logger self) as [l|]; [|done].
  intros ?; simplify_eq. simpl. split; [eauto|].
  intros [Hw | ->]; apply elem_of_app; [by left | right; apply list_elem_of_singleton; done].
Qed.

Lemma _add_quantity_to_parse_logger self quantities :
  _vasp_parser_logger (_add_quantity_to_parse self quantities).1 = _vasp_parser_logger self.
Proof.
  induction quantities as [|q l IH]; simpl; [done|]. by destruct (is_parsable q).
Qed.

Lemma visit_quantity_name_logged registry self self' quantity_name w :
  visit_quantity_name registry self quantity_name = Ok self' →
  w ∈ logged self → w ∈ logged self'.
Proof.
  unfold visit_quantity_name. intros H Hw.
  destruct (get_by_name registry quantity_name) as [quantity|].
  2: { eapply log_warning_logged; eauto. }
  pose proof (_add_quantity_to_parse_logger self
                (get_equivalent_quantities registry quantity_name)) as Hl.
  destruct (_add_quantity_to_parse self _) as [s b]; simpl in *.
  assert (w ∈ logged s) as Hs by (unfold logged in *; by rewrite Hl).
  destruct b; [by injection H as <-|].
  inv_bind H. inv_bind H.
  assert (w ∈ logged a0) as H0 by (eapply log_warning_logged; eauto).
  destruct (scan_missing_files _ _); [|by injection H as <-].
  eapply log_warning_logged; eauto.
Qed.

Lemma visit_quantity_names_logged registry names self self' w :
  visit_quantity_names registry self names = Ok self' →
  w ∈ logged self → w ∈ logged self'.
Proof.
  revert self. induction names as [|q l IH]; intros self H Hw; simpl in *.
  - by injection H as <-.
  - inv_bind H. eapply IH; [done|]. eapply visit_quantity_name_logged; eauto.
Qed.

Lemma visit_quantity_name_keeps_logger registry self self' quantity_name :
  visit_quantity_name registry self quantity_name = Ok self' →
  is_Some (_vasp_parser_logger self) → is_Some (_vasp_parser_logger self').
Proof.
  unfold visit_quantity_name. intros H Hs.
  destruct (get_by_name registry quantity_name) as [quantity|].
  2: { eapply (log_warning_logged _ _ _ (NotImplementedWarning quantity_name)); eauto. }
  pose proof (_add_quantity_to_parse_logger self
                (get_equivalent_quantities registry quantity_name)) as Hl.
  destruct (_add_quantity_to_parse self _) as [s b]; simpl in *.
  destruct b; [injection H as <-; by rewrite Hl|].
  inv_bind H. inv_bind H.
  destruct (scan_missing_files _ _); [|injection H as <-].
  - eapply (log_warning_logged _ _ _ (NotImplementedWarning quantity_name)); eauto.
  - eapply (log_warning_logged _ _ _ (NotImplementedWarning quantity_name)); eauto.
Qed.

Lemma visit_quantity_names_keeps_logger registry names self self' :
  visit_quantity_names registry self names = Ok self' →
  is_Some (_vasp_parser_logger self) → is_Some (_vasp_parser_logger self').
Proof.
  revert self. induction names as [|q l IH]; intros self H Hs; simpl in *.
  - by injection H as <-.
  - inv_bind H. eapply IH; [done|]. eapply visit_quantity_name_keeps_logger; eauto.
Qed.

Lemma setup_Some self names registry :
  setup self (Some names) (Some registry) =
  visit_quantity_names registry (with_quantities_to_parse self []) names.
Proof. by destruct names. Qed.

Lemma result_rel_quantities_to_parse (r1 r2 : result ParserManager.t) :
  result_rel same_up_to_log r1 r2 →
  quantities_to_parse <$> r1 = quantities_to_parse <$> r2.
Proof.
  destruct r1 as [s1|e1], r2 as [s2|e2]; simpl; try done.
  - intros (_ & Hq & _). unfold quantities_to_parse. by rewrite Hq.
  - by intros ->.
Qed.

Lemma visit_unknown registry self quantity_name :
  get_by_name registry quantity_name = None →
  is_Some (_vasp_parser_logger self) →
  visit_quantity_name registry self quantity_name =
    Ok (with_logger self (logged self ++ [NotImplementedWarning quantity_name])).
Proof.
  intros Hq [l Hl]. unfold visit_quantity_name, log_warning, logged.
  by rewrite Hq, Hl.
Qed.

(** With a node and a logger at hand no turn of the loop raises. *)
Lemma visit_quantity_name_total registry self quantity_name :
  is_Some (_node self) → is_Some (_vasp_parser_logger self) →
  ∃ self', visit_quantity_name registry self quantity_name = Ok self' ∧
           is_Some (_node self') ∧ is_Some (_vasp_parser_logger self').
Proof.
  intros [n Hn] [l Hl]. unfold visit_quantity_name.
  destruct (get_by_name registry quantity_name) as [quantity|].
  2: { unfold log_warning. rewrite Hl. eexists. split; [done|]. simpl. eauto. }
  destruct (first_parsable_split (get_equivalent_quantities registry quantity_name))
    as [Hnone | (b & x & a & -> & Hb & Hx)].
  - rewrite (_add_quantity_to_parse_none _ _ Hnone).
    unfold the_node, log_warning. rewrite Hn, Hl. simpl.
    destruct (scan_missing_files _ _); simpl; eexists; (split; [done|]); simpl; eauto.
  - rewrite (_add_quantity_to_parse_first _ _ _ _ Hb Hx).
    eexists. split; [done|]. simpl. eauto.
Qed.

Lemma visit_quantity_names_total registry names self :
  is_Some (_node self) → is_Some (_vasp_parser_logger self) →
  ∃ self', visit_quantity_names registry self names = Ok self'.
Proof.
  revert self. induction names as [|q l IH]; intros self Hn Hl; simpl; [eauto|].
  destruct (visit_quantity_name_total registry self q Hn Hl) as (s & -> & Hn' & Hl').
  simpl. by apply IH.
Qed.

(** C3. A requested name that the registry does not know is skipped: its
    turn of the loop raises nothing, logs the warning about the missing
    parser and leaves the list as it is; the list [setup] arrives at is the
    one it arrives at without that name, the warning is in the log at the
    end, and [setup] as a whole raises nothing when the manager also has
    its node. *)
Theorem unknown_quantity_is_skipped self registry before quantity_name after :
  is_Some (_vasp_parser_logger self) →
  get_by_name registry quantity_name = None →
  (∀ st, is_Some (_vasp_parser_logger st) →
     visit_quantity_name registry st quantity_name =
       Ok (with_logger st (logged st ++ [NotImplementedWarning quantity_name]))) ∧
  quantities_to_parse <$> setup self (Some (before ++ quantity_name :: after)) (Some registry) =
    quantities_to_parse <$> setup self (Some (before ++ after)) (Some registry) ∧
  (∀ self', setup self (Some (before ++ quantity_name :: after)) (Some registry) = Ok self' →
     NotImplementedWarning quantity_name ∈ logged self') ∧
  (is_Some (_node self) →
     ∃ self', setup self (Some (before ++ quantity_name :: after)) (Some registry) = Ok self').
Proof.
  intros Hlog Hq. split_and!.
  - intros st Hst. by apply visit_unknown.
  - rewrite !setup_Some, !visit_quantity_names_app.
    destruct (visit_quantity_names registry _ before) as [s1|e] eqn:E1; [|done].
    assert (is_Some (_vasp_parser_logger s1)) as H1
      by (eapply visit_quantity_names_keeps_logger; eauto).
    simpl. rewrite (visit_unknown _ _ _ Hq H1). simpl.
    apply result_rel_quantities_to_parse, same_up_to_log_visit_names.
    split_and!; simpl; [done..|]. split; eauto.
  - intros self'. rewrite setup_Some, visit_quantity_names_app. intros H.
    inv_bind H. simpl in H.
    assert (is_Some (_vasp_parser_logger a)) as H1
      by (eapply visit_quantity_names_keeps_logger; eauto).
    rewrite (visit_unknown _ _ _ Hq H1) in H. simpl in H.
    eapply visit_quantity_names_logged; [done|].
    unfold logged at 1. simpl. set_solver.
  - intros Hn. rewrite setup_Some. by apply visit_quantity_names_total.
Qed.

Lemma chosen_length registry quantity_name :
  (length (chosen registry quantity_name) ≤ 1)%nat.
Proof.
  unfold chosen. destruct (get_by_name _ _); [|simpl; lia].
  destruct (List.find _ _); simpl; lia.
Qed.

Lemma find_first before (quantity : ParsableQuantity) after :
  Forall not_parsable before → is_parsable quantity = true →
  List.find is_parsable (before ++ quantity :: after) = Some quantity.
Proof.
  intros Hb Hq. induction Hb as [|q l Hnp _ IH]; simpl.
  - by rewrite Hq.
  - by rewrite Hnp.
Qed.

Lemma find_none (quantities : list ParsableQuantity) :
  Forall not_parsable quantities → List.find is_parsable quantities = None.
Proof. induction 1 as [|q l Hnp _ IH]; simpl; [done|]. by rewrite Hnp. Qed.

Lemma visit_quantity_name_chosen registry self self' quantity_name :
  visit_quantity_name registry self quantity_name = Ok self' →
  _quantities_to_parse self' = _quantities_to_parse self ++ chosen registry quantity_name.
Proof.
  unfold visit_quantity_name, chosen.
  destruct (get_by_name registry quantity_name) as [quantity|].
  2: { unfold log_warning. destruct (_vasp_parser_logger self); [|done].
       intros ?; simplify_eq. simpl. by rewrite app_nil_r. }
  destruct (first_parsable_split (get_equivalent_quantities registry quantity_name))
    as [Hnone | (b & x & a & -> & Hb & Hx)].
  - rewrite (_add_quantity_to_parse_none _ _ Hnone), (find_none _ Hnone), app_nil_r.
    unfold the_node, log_warning. intros H. inv_bind H. inv_bind H.
    destruct (_vasp_parser_logger self); [|done]. simplify_eq.
    destruct (scan_missing_files _ _); simpl in H; by simplify_eq.
  - rewrite (_add_quantity_to_parse_first _ _ _ _ Hb Hx), (find_first _ _ _ Hb Hx).
    by intros ?; simplify_eq.
Qed.

Lemma visit_quantity_names_chosen registry names self self' :
  visit_quantity_names registry self names = Ok self' →
  _quantities_to_parse self' = _quantities_to_parse self ++ (names ≫= chosen registry).
Proof.
  revert self. induction names as [|q l IH]; intros self H; simpl in *.
  - simplify_eq. by rewrite app_nil_r.
  - inv_bind H. rewrite (IH _ H), (visit_quantity_name_chosen _ _ _ _ Ha).
    by rewrite <-app_assoc.
Qed.

(** C4. For a requested name the registry knows, the turn of the loop
    appends the original name of the first quantity, in the order of
    [get_equivalent_quantities], whose [is_parsable] is true, and nothing
    else; whatever the equivalents, a turn adds at most one name; and the
    list [setup] arrives at is made of these names, in the order of the
    requested names. *)
Theorem first_parsable_equivalent_is_added self registry quantity_name quantity :
  get_by_name registry quantity_name = Some quantity →
  (∀ before first after,
     get_equivalent_quantities registry quantity_name = before ++ first :: after →
     Forall not_parsable before → is_parsable first = true →
     visit_quantity_name registry self quantity_name =
       Ok (with_quantities_to_parse self
             (_quantities_to_parse self ++ [original_name first])) ∧
     chosen registry quantity_name = [original_name first]) ∧
  (∀ self', visit_quantity_name registry self quantity_name = Ok self' →
     ∃ added, _quantities_to_parse self' = _quantities_to_parse self ++ added ∧
              (length added ≤ 1)%nat) ∧
  (∀ names self', setup self (Some names) (Some registry) = Ok self' →
     quantities_to_parse self' = names ≫= chosen registry).
Proof.
  intros Hq. split_and!.
  - intros b x a He Hb Hx. unfold visit_quantity_name, chosen.
    by rewrite Hq, He, (_add_quantity_to_parse_first _ _ _ _ Hb Hx), (find_first _ _ _ Hb Hx).
  - intros self' H. exists (chosen registry quantity_name).
    split; [by apply visit_quantity_name_chosen | apply chosen_length].
  - intros names self'. rewrite setup_Some. intros H.
    unfold quantities_to_parse. by rewrite (visit_quantity_names_chosen _ _ _ _ H).
Qed.

Lemma scan_missing_files_last missing_files retrieve_list :
  scan_missing_files missing_files retrieve_list =
  last (filter (λ item, item ∉ retrieve_list) missing_files).
Proof.
  unfold scan_missing_files.
  induction missing_files as [|x l IH] using rev_ind; [done|].
  rewrite foldl_app, filter_app. simpl. rewrite IH.
  rewrite filter_cons, filter_nil.
  destruct (decide (x ∈ retrieve_list)), (decide (x ∉ retrieve_list)); try done.
  - by rewrite app_nil_r.
  - by rewrite last_snoc.
Qed.

(** With no parsable equivalent, the turn logs all the missing files, and
    then the last of them that is in neither retrieve list, if any. *)
Lemma visit_not_parsable registry self quantity_name quantity node log :
  get_by_name registry quantity_name = Some quantity →
  Forall not_parsable (get_equivalent_quantities registry quantity_name) →
  _node self = Some node →
  _vasp_parser_logger self = Some log →
  let missing_files := get_missing_files registry quantity_name in
  let retrieve_list := get_retrieve_temporary_list node ++ get_retrieve_list node in
  visit_quantity_name registry self quantity_name =
    Ok (with_logger self
          (log ++ MissingFilesWarning quantity_name missing_files ::
             match last (filter (λ item, item ∉ retrieve_list) missing_files) with
             | Some item => [NotInRetrieveListWarning item]
             | None => []
             end)).
Proof.
  intros Hq Hnone Hn Hl. simpl. unfold visit_quantity_name.
  rewrite Hq, (_add_quantity_to_parse_none _ _ Hnone).
  unfold the_node, log_warning. rewrite Hn, Hl. simpl.
  rewrite scan_missing_files_last.
  destruct (last _); simpl; [|done].
  unfold with_logger. simpl. by rewrite <-app_assoc.
Qed.

(** C5 (the code at the failing input). Two of the files that
    ["eigenvalues"] needs are in neither retrieve list; the first warning
    names both, the second warning names the last of them only. *)
Theorem only_last_unscheduled_file_is_logged :
  logged <$> setup Sample.manager (Some ["eigenvalues"]) (Some Sample.registry) =
    Ok [ MissingFilesWarning "eigenvalues" ["vasprun.xml"; "EIGENVAL"];
         NotInRetrieveListWarning "EIGENVAL" ] ∧
  "vasprun.xml" ∉ get_retrieve_temporary_list Sample.calc_node ++
                  get_retrieve_list Sample.calc_node.
Proof.
  split; [reflexivity|].
  simpl. intros H. repeat (apply elem_of_cons in H as [H|H]; [discriminate H|]).
  by apply elem_of_nil in H.
Qed.

(** The same at a concrete registry. *)
Lemma unknown_quantity_is_skipped_witness :
  quantities_to_parse <$>
    setup Sample.manager (Some (["structure"] ++ "band_gap" :: ["kpoints"]))
          (Some Sample.registry) =
  quantities_to_parse <$>
    setup Sample.manager (Some (["structure"] ++ ["kpoints"])) (Some Sample.registry).
Proof.
  apply (unknown_quantity_is_skipped Sample.manager Sample.registry
           ["structure"] "band_gap" ["kpoints"]).
  - simpl. eauto.
  - reflexivity.
Defined.

Lemma first_parsable_equivalent_is_added_witness :
  visit_quantity_name Sample.registry Sample.manager "structure" =
    Ok (with_quantities_to_parse Sample.manager ["poscar-structure"]).
Proof.
  apply (proj1 (first_parsable_equivalent_is_added Sample.manager Sample.registry
                  "structure" Sample.structure eq_refl)
           [Sample.structure] Sample.poscar_structure [Sample.contcar_structure]).
  - reflexivity.
  - by repeat constructor.
  - reflexivity.
Defined.

End manager.

(** ** Ordered dictionaries *)

Section dict.
Implicit Types (d : pydict) (k : string) (v : pyval).

Lemma dict_lookup_set d k v k' :
  dict_lookup (dict_set d k v) k' = if decide (k = k') then Some v else dict_lookup d k'.
Proof.
  induction d as [|[k0 v0] d IH]; simpl.
  - by destruct (decide (k = k')).
  - destruct (decide (k0 = k)) as [->|Hne]; simpl.
    + by destruct (decide (k = k')).
    + destruct (decide (k0 = k')) as [->|]; [|done].
      by destruct (decide (k = k')) as [->|].
Qed.

Lemma dict_set_set d k v1 v2 : dict_set (dict_set d k v1) k v2 = dict_set d k v2.
Proof.
  induction d as [|[k0 v0] d IH]; simpl.
  - by destruct (decide (k = k)).
  - destruct (decide (k0 = k)) as [->|Hne]; simpl.
    + by destruct (decide (k = k)).
    + destruct (decide (k0 = k)); [done|]. by rewrite IH.
Qed.

Lemma dict_set_fresh d k v :
  k ∉ dict_keys d → dict_set d k v = d ++ [(k, v)].
Proof.
  induction d as [|[k0 v0] d IH]; simpl; [done|].
  intros Hk. apply not_elem_of_cons in Hk as [Hne Hk].
  destruct (decide (k0 = k)) as [->|]; [done|]. by rewrite IH.
Qed.

(** Filling an empty dictionary from a dictionary gives it back. *)
Lemma dict_update_app d e :
  NoDup (dict_keys (d ++ e)) → dict_update d e = d ++ e.
Proof.
  revert d. induction e as [|[k v] e IH]; intros d Hnd; simpl.
  - by rewrite app_nil_r.
  - unfold dict_update in *. simpl.
    replace (d ++ (k, v) :: e) with ((d ++ [(k, v)]) ++ e) in * by by rewrite <-app_assoc.
    rewrite dict_set_fresh.
    + by apply IH.
    + unfold dict_keys in *. rewrite !fmap_app in Hnd.
      apply NoDup_app in Hnd as (Hnd & _ & _).
      apply NoDup_app in Hnd as (_ & Hd & _).
      intros Hin. apply (Hd k Hin). simpl. by left.
Qed.

Lemma dict_update_empty e : NoDup (dict_keys e) → dict_update [] e = e.
Proof. intros H. by apply (dict_update_app []). Qed.

Lemma dict_lookup_elem_of d k v :
  NoDup (dict_keys d) → (k, v) ∈ d → dict_lookup d k = Some v.
Proof.
  induction d as [|[k0 v0] d IH]; simpl; intros Hnd Hin.
  - by apply elem_of_nil in Hin.
  - apply NoDup_cons in Hnd as [Hk0 Hnd].
    apply elem_of_cons in Hin as [Heq|Hin].
    + simplify_eq. by destruct (decide (k0 = k0)).
    + destruct (decide (k0 = k)) as [->|]; [|by apply IH].
      exfalso. apply Hk0. unfold dict_keys. apply list_elem_of_fmap. by exists (k, v).
Qed.

End dict.

(** ** Collecting the inputs *)

Section collect.
Implicit Types (registry : ParsableQuantities) (parsed : gmap string pyval).

Lemma is_none_true v : is_none v = true ↔ v = PNone.
Proof. by destruct v. Qed.

Lemma last_with_entry_cons parsed e equivalents :
  last_with_entry parsed (e :: equivalents) =
  match last_with_entry parsed equivalents with
  | Some e' => Some e'
  | None => if decide (has_entry parsed e) then Some e else None
  end.
Proof.
  unfold last_with_entry. rewrite filter_cons.
  destruct (decide (has_entry parsed e)); [by rewrite last_cons|].
  by destruct (last _).
Qed.

Lemma last_with_entry_Some parsed equivalents e :
  last_with_entry parsed equivalents = Some e →
  e ∈ equivalents ∧ has_entry parsed e.
Proof.
  unfold last_with_entry. intros H.
  assert (e ∈ filter (has_entry parsed) equivalents) as Hin.
  { apply last_Some in H as [l ->]. apply elem_of_app. right. by left. }
  apply list_elem_of_filter in Hin. tauto.
Qed.

Lemma last_with_entry_split parsed before e after :
  has_entry parsed e → Forall (λ x, ¬ has_entry parsed x) after →
  last_with_entry parsed (before ++ e :: after) = Some e.
Proof.
  intros He Ha. unfold last_with_entry. rewrite filter_app, filter_cons.
  destruct (decide (has_entry parsed e)); [|done].
  replace (filter (has_entry parsed) after) with (@nil ParsableQuantity).
  - by rewrite last_snoc.
  - symmetry. induction Ha as [|x l Hx _ IH]; [done|].
    rewrite filter_cons. by destruct (decide (has_entry parsed x)).
Qed.

(** The loop over the equivalents keeps the value of the last one that
    has an entry. *)
Lemma alternative_loop_last quantity parsed equivalents inputs :
  alternative_loop quantity parsed equivalents inputs =
  match last_with_entry parsed equivalents with
  | None => Ok inputs
  | Some e =>
      key ← quantity_name_attr quantity;
      Ok (dict_set inputs key (parsed_get parsed (original_name e)))
  end.
Proof.
  revert inputs. induction equivalents as [|e l IH]; intros inputs; [done|].
  rewrite last_with_entry_cons. simpl. unfold has_entry.
  destruct (decide (is_Some (parsed !! original_name e))) as [He|He].
  - destruct quantity as [q|]; simpl.
    + rewrite IH.
      destruct (last_with_entry parsed l); simpl.
      * by rewrite dict_set_set.
      * done.
    + destruct (last_with_entry parsed l); done.
  - rewrite IH. by destruct (last_with_entry parsed l).
Qed.

(** One turn of the loop, by what the name contributes. *)
Lemma collect_quantity_contribution registry parsed inputs quantity_name :
  collect_quantity registry parsed inputs quantity_name =
  match contribution registry parsed quantity_name with
  | None => Ok inputs
  | Some value =>
      key ← quantity_name_attr (get_by_name registry quantity_name);
      Ok (dict_set inputs key value)
  end.
Proof.
  unfold collect_quantity, contribution, _get_alternative_parsed_quantity.
  destruct (is_none (parsed_get parsed quantity_name)); [|done].
  rewrite alternative_loop_last.
  destruct (last_with_entry parsed _) as [e|]; simpl; [|done].
  by destruct (get_by_name registry quantity_name).
Qed.

Lemma collect_loop_app registry parsed names1 names2 inputs :
  collect_loop registry parsed (names1 ++ names2) inputs =
  collect_loop registry parsed names1 inputs ≫= collect_loop registry parsed names2.
Proof.
  revert inputs. induction names1 as [|q l IH]; intros inputs; simpl; [done|].
  destruct (collect_quantity registry parsed inputs q); simpl; [apply IH | done].
Qed.

(** Every entry of the result was there before or is the contribution of
    a required name that the registry knows. *)
Lemma collect_loop_origin registry parsed names inputs0 inputs key value :
  collect_loop registry parsed names inputs0 = Ok inputs →
  dict_lookup inputs key = Some value →
  dict_lookup inputs0 key = Some value ∨
  ∃ quantity_name quantity,
    quantity_name ∈ names ∧
    get_by_name registry quantity_name = Some quantity ∧
    name quantity = key ∧
    contribution registry parsed quantity_name = Some value.
Proof.
  revert inputs0. induction names as [|q l IH]; intros inputs0 H Hk; simpl in H.
  - simplify_eq. by left.
  - inv_bind H. destruct (IH _ H Hk) as [Hold | (q' & quantity & Hin & Hq & Hn & Hc)].
    + rewrite collect_quantity_contribution in Ha.
      destruct (contribution registry parsed q) as [v|] eqn:Hc; [|simplify_eq; by left].
      destruct (get_by_name registry q) as [quantity|] eqn:Hq; [|done].
      simpl in Ha. simplify_eq. rewrite dict_lookup_set in Hold.
      destruct (decide (name quantity = key)) as [Hn|]; [|by left].
      right. exists q, quantity. simplify_eq. split_and!; try done. by left.
    + right. exists q', quantity. split_and!; try done. by right.
Qed.

(** A key no later name writes keeps its entry. *)
Lemma collect_loop_keeps registry parsed names inputs0 inputs key :
  collect_loop registry parsed names inputs0 = Ok inputs →
  (∀ quantity_name quantity,
     quantity_name ∈ names → get_by_name registry quantity_name = Some quantity →
     name quantity ≠ key) →
  dict_lookup inputs key = dict_lookup inputs0 key.
Proof.
  revert inputs0. induction names as [|q l IH]; intros inputs0 H Hne; simpl in H.
  - by simplify_eq.
  - inv_bind H. rewrite (IH _ H).
    2: { intros q' quantity Hin. apply Hne. by right. }
    rewrite collect_quantity_contribution in Ha.
    destruct (contribution registry parsed q) as [v|]; [|by simplify_eq].
    destruct (get_by_name registry q) as [quantity|] eqn:Hq; [|done].
    simpl in Ha. simplify_eq. rewrite dict_lookup_set.
    destruct (decide (name quantity = key)) as [Hn|]; [|done].
    exfalso. eapply Hne; [|done..]. by left.
Qed.

Lemma contribution_Some registry parsed quantity_name value :
  contribution registry parsed quantity_name = Some value →
  (parsed_get parsed quantity_name ≠ PNone ∧ value = parsed_get parsed quantity_name) ∨
  (parsed_get parsed quantity_name = PNone ∧
   ∃ e, e ∈ get_equivalent_quantities registry quantity_name ∧
        has_entry parsed e ∧ value = parsed_get parsed (original_name e)).
Proof.
  unfold contribution.
  destruct (is_none (parsed_get parsed quantity_name)) eqn:Hn.
  - apply is_none_true in Hn. intros H. right. split; [done|].
    destruct (last_with_entry parsed _) as [e|] eqn:He; [|done].
    simpl in H. simplify_eq. apply last_with_entry_Some in He as [Hin He]. eauto.
  - intros ?; simplify_eq. left. split; [|done].
    intros Heq. apply is_none_true in Heq. congruence.
Qed.

Lemma get_node_composer_inputs_eq Q pq pd fp node_type quantity_names :
  get_node_composer_inputs Q pq pd fp node_type quantity_names =
  _collect_quantity_data (select_quantities Q pq pd fp).1 (select_quantities Q pq pd fp).2
    node_type quantity_names.
Proof.
  unfold get_node_composer_inputs. by destruct (select_quantities Q pq pd fp).
Qed.

End collect.

Section collected_inputs.
Context (Q : quantity_module) (parsable_quantities : ParsableQuantities)
        (parsed_quantities : gmap string pyval) (file_parser : option FileParser).

Let registry := (select_quantities Q parsable_quantities parsed_quantities file_parser).1.
Let parsed := (select_quantities Q parsable_quantities parsed_quantities file_parser).2.

(** C1 (amended). An entry of the collected inputs is the contribution of
    a required name with that output key: the name's own value when that
    is not [None], else the value, [None] or not, of an equivalent whose
    original name is a key of the table. When no required name with the
    output key has either, the inputs have no such key. *)
Theorem inputs_come_from_entries node_type quantity_names inputs :
  get_node_composer_inputs Q parsable_quantities parsed_quantities file_parser
    node_type quantity_names = Ok inputs →
  ∃ names, resolve_quantity_names node_type quantity_names = Ok names ∧
  (∀ key value,
     dict_lookup inputs key = Some value →
     ∃ quantity_name quantity,
       quantity_name ∈ names ∧
       get_by_name registry quantity_name = Some quantity ∧
       name quantity = key ∧
       ((parsed_get parsed quantity_name ≠ PNone ∧
         value = parsed_get parsed quantity_name) ∨
        (parsed_get parsed quantity_name = PNone ∧
         ∃ e, e ∈ get_equivalent_quantities registry quantity_name ∧
              has_entry parsed e ∧ value = parsed_get parsed (original_name e)))) ∧
  (∀ key,
     (∀ quantity_name quantity,
        quantity_name ∈ names →
        get_by_name registry quantity_name = Some quantity →
        name quantity = key →
        parsed_get parsed quantity_name = PNone ∧
        Forall (λ e, ¬ has_entry parsed e)
               (get_equivalent_quantities registry quantity_name)) →
     dict_lookup inputs key = None).
Proof.
  rewrite get_node_composer_inputs_eq. fold registry parsed.
  unfold _collect_quantity_data. intros H. inv_bind H. rename a into names.
  exists names. split; [done|].
  assert (∀ key value, dict_lookup inputs key = Some value →
            ∃ quantity_name quantity,
              quantity_name ∈ names ∧
              get_by_name registry quantity_name = Some quantity ∧
              name quantity = key ∧
              contribution registry parsed quantity_name = Some value) as Horigin.
  { intros key value Hk.
    by destruct (collect_loop_origin _ _ _ _ _ _ _ H Hk) as [Hnil|?]. }
  split.
  - intros key value Hk.
    destruct (Horigin key value Hk) as (q & quantity & Hin & Hq & Hn & Hc).
    exists q, quantity. split_and!; try done. by apply contribution_Some.
  - intros key Hnone.
    destruct (dict_lookup inputs key) as [value|] eqn:Hk; [exfalso|done].
    destruct (Horigin key value Hk) as (q & quantity & Hin & Hq & Hn & Hc).
    destruct (Hnone q quantity Hin Hq Hn) as [Hown Hnot].
    apply contribution_Some in Hc as [[Hc _] | (_ & e & He & Hentry & _)]; [done|].
    by apply (proj1 (Forall_forall _ _) Hnot e He).
Qed.

(** C2 (amended). A required name that the registry knows and that has no
    value of its own gets, under its output key, the value of the last of
    its equivalents, in the order of [get_equivalent_quantities], whose
    original name is a key of the table, as long as no later required
    name has the same output key. *)
Theorem last_equivalent_with_entry_is_used node_type quantity_names inputs
    before quantity_name after quantity earlier e later :
  get_node_composer_inputs Q parsable_quantities parsed_quantities file_parser
    node_type quantity_names = Ok inputs →
  resolve_quantity_names node_type quantity_names = Ok (before ++ quantity_name :: after) →
  get_by_name registry quantity_name = Some quantity →
  parsed_get parsed quantity_name = PNone →
  get_equivalent_quantities registry quantity_name = earlier ++ e :: later →
  has_entry parsed e →
  Forall (λ x, ¬ has_entry parsed x) later →
  (∀ other quantity', other ∈ after → get_by_name registry other = Some quantity' →
                      name quantity' ≠ name quantity) →
  dict_lookup inputs (name quantity) = Some (parsed_get parsed (original_name e)).
Proof.
  rewrite get_node_composer_inputs_eq. fold registry parsed.
  unfold _collect_quantity_data. intros H Hnames Hq Hown Heq He Hlater Hafter.
  rewrite Hnames in H. simpl in H.
  rewrite collect_loop_app in H. inv_bind H. simpl in H. inv_bind H.
  rewrite (collect_loop_keeps _ _ _ _ _ _ H Hafter).
  rewrite collect_quantity_contribution in Ha0. unfold contribution in Ha0.
  rewrite Hown, Heq, (last_with_entry_split _ _ _ _ He Hlater), Hq in Ha0.
  simpl in Ha0. simplify_eq. rewrite dict_lookup_set.
  by destruct (decide (name quantity = name quantity)).
Qed.

End collected_inputs.

(** C1 (counterexample). The table has an entry for the POSCAR structure
    that holds [None]: ["structure"] is in the inputs, with [None]. *)
Lemma null_entry_is_included :
  ¬ included_only_with_value Sample.registry Sample.parsed_null "structure".
Proof.
  intros H.
  destruct (H Sample.registry_builder [("structure", PNone)] ["structure"] "structure"
              Sample.structure) as [Hown | (e & Hin & He)].
  - reflexivity.
  - reflexivity.
  - by left.
  - reflexivity.
  - simpl. eauto.
  - by apply Hown.
  - simpl in Hin.
    repeat (apply elem_of_cons in Hin as [->|Hin]; [by apply He|]).
    by apply elem_of_nil in Hin.
Qed.

(** C2 (counterexample). Two equivalents of ["structure"] have a value:
    the inputs hold the one of the CONTCAR, not the one of the POSCAR. *)
Lemma earlier_equivalent_is_overwritten :
  ¬ any_equivalent_value_is_used Sample.registry Sample.parsed_two "structure".
Proof.
  intros H.
  specialize (H Sample.registry_builder [("structure", PStr "from CONTCAR")]
                ["structure"] "structure" Sample.structure Sample.poscar_structure
                (PStr "from POSCAR")).
  assert (Some (PStr "from CONTCAR") = Some (PStr "from POSCAR")) as Habs; [|done].
  apply H; try reflexivity; try done.
  - by left.
  - simpl. right. by left.
Qed.

Lemma inputs_come_from_entries_witness :
  ∃ quantity_name quantity,
    quantity_name ∈ ["structure"] ∧
    get_by_name Sample.registry quantity_name = Some quantity ∧
    name quantity = "structure" ∧
    ((parsed_get Sample.parsed_two quantity_name ≠ PNone ∧
      PStr "from CONTCAR" = parsed_get Sample.parsed_two quantity_name) ∨
     (parsed_get Sample.parsed_two quantity_name = PNone ∧
      ∃ e, e ∈ get_equivalent_quantities Sample.registry quantity_name ∧
           has_entry Sample.parsed_two e ∧
           PStr "from CONTCAR" = parsed_get Sample.parsed_two (original_name e))).
Proof.
  destruct (inputs_come_from_entries Sample.registry_builder Sample.registry
              Sample.parsed_two None "structure" None
              [("structure", PStr "from CONTCAR")] eq_refl)
    as (names & Hnames & Horigin & _).
  injection Hnames as <-.
  exact (Horigin "structure" (PStr "from CONTCAR") eq_refl).
Defined.

Lemma last_equivalent_with_entry_is_used_witness :
  dict_lookup [("structure", PStr "from CONTCAR")] "structure" =
    Some (PStr "from CONTCAR").
Proof.
  apply (last_equivalent_with_entry_is_used Sample.registry_builder Sample.registry
           Sample.parsed_two None "structure" None
           [("structure", PStr "from CONTCAR")] [] "structure" [] Sample.structure
           [Sample.structure; Sample.poscar_structure] Sample.contcar_structure []).
  - reflexivity.
  - reflexivity.
  - reflexivity.
  - reflexivity.
  - reflexivity.
  - simpl. unfold has_entry. simpl. eauto.
  - constructor.
  - intros other quantity' Hin. by apply elem_of_nil in Hin.
Defined.

(** ** Dispatch on the node type *)

Section dispatch.
Import NodeComposer.

Lemma str_replace_nil a b s : str_replace a b s = EmptyString → s = EmptyString.
Proof. by destruct s. Qed.

Lemma str_replace_cons a b s c t :
  str_replace a b s = String c t →
  ∃ c0 s0, s = String c0 s0 ∧ (if decide (c0 = a) then b else c0) = c ∧
           str_replace a b s0 = t.
Proof. destruct s as [|c0 s0]; simpl; [done|]. intros ?; simplify_eq. eauto. Qed.

(** Peel one character off an equation [str_replace "." "_" s = "..."]. *)
Ltac peel H :=
  first
    [ apply str_replace_nil in H; subst
    | let c0 := fresh "c" in
      let Hc := fresh "Hc" in
      apply str_replace_cons in H as (c0 & ? & -> & Hc & H);
      destruct (decide (c0 = "."%char)); [subst c0; try discriminate Hc | subst c0] ].

Lemma str_replace_suffix node_type :
  str_replace "." "_" node_type ∈ method_suffixes →
  node_type ∈ supported_tags ∨ node_type ∈ underscore_spellings.
Proof.
  unfold method_suffixes. intros H.
  repeat (apply elem_of_cons in H as [H|H]; [|]); [..|by apply elem_of_nil in H];
    repeat peel H; apply (bool_decide_unpack _); by vm_compute.
Qed.

Lemma getattr_unknown suffix :
  suffix ∉ method_suffixes → getattr ("_compose_" +:+ suffix) = Raise AttributeError.
Proof.
  intros Hs. unfold getattr, composers. simpl.
  repeat match goal with
         | |- context [decide (?a = ?b)] =>
             destruct (decide (a = b)) as [Heq|_];
             [exfalso; cbv [String.append] in Heq; simplify_eq; apply Hs;
              apply (bool_decide_unpack _); by vm_compute|]
         end.
  done.
Qed.

(** C6 (amended). For a tag that is neither a supported tag nor the
    spelling of one with [_] for [.], [compose] finds no method: it raises
    the attribute error of the lookup and returns nothing. *)
Theorem unknown_tag_raises get_data_class node_type inputs :
  node_type ∉ supported_tags →
  node_type ∉ underscore_spellings →
  compose get_data_class node_type inputs = Raise AttributeError.
Proof.
  intros H1 H2. unfold compose. rewrite getattr_unknown; [done|].
  intros Hs. by destruct (str_replace_suffix _ Hs).
Qed.

(** C6 (counterexample). ["vasp_wavefun"] is not a supported tag, yet
    [compose] finds [_compose_vasp_wavefun] and, with no inputs, returns
    [None] without raising. *)
Lemma underscore_spelling_does_not_raise : ¬ unsupported_tags_raise.
Proof.
  intros H. destruct (H Sample.get_data_class "vasp_wavefun" []) as [e He].
  - apply (bool_decide_unpack _). by vm_compute.
  - discriminate He.
Qed.

Lemma unknown_tag_raises_witness :
  compose Sample.get_data_class "array.projection" Sample.energies = Raise AttributeError.
Proof.
  apply (unknown_tag_raises Sample.get_data_class "array.projection" Sample.energies).
  - apply (bool_decide_unpack _). by vm_compute.
  - apply (bool_decide_unpack _). by vm_compute.
Defined.

End dispatch.

(** ** The composers *)

Section composers.
Import NodeComposer.
Context (get_data_class : data_class_getter).

Lemma dict_getitem_single key value : dict_getitem [(key, value)] key = Ok value.
Proof. unfold dict_getitem. simpl. by destruct (decide (key = key)). Qed.

(** An automatic mesh under a single key: one [set_kpoints_mesh]. *)
Lemma _compose_array_kpoints_automatic node_type cls key value mesh shifts :
  get_data_class node_type = Ok cls →
  py_getitem value "mode" = Ok (PStr "automatic") →
  py_get value "divisions" = Ok mesh →
  py_get value "shifts" = Ok shifts →
  _compose_array_kpoints get_data_class node_type [(key, value)] =
    Ok (DataNode cls None [set_kpoints_mesh mesh shifts]).
Proof.
  intros Hcls Hmode Hmesh Hshifts.
  unfold _compose_array_kpoints, instantiate. rewrite Hcls. simpl.
  rewrite dict_getitem_single. simpl. rewrite Hmode. simpl.
  unfold kpoints_automatic. by rewrite Hmesh, Hshifts.
Qed.

(** C7. With values for ["kpoints"], ["eigenvalues"] and ["occupancies"],
    the bands composer composes a k-points node from the ["kpoints"] value
    alone, hands it to the bands node and then sets the bands and
    occupations: when the independent composition of ["array.kpoints"]
    returns a node, that node is the k-points node of the result, and when
    it raises, the bands composition raises the same. *)
Theorem bands_kpoints_are_composed_independently cls inputs kpoints eigenvalues
    occupancies :
  get_data_class "array.bands" = Ok cls →
  dict_lookup inputs "kpoints" = Some kpoints →
  dict_lookup inputs "eigenvalues" = Some eigenvalues →
  dict_lookup inputs "occupancies" = Some occupancies →
  (∀ kpoints_node,
     compose get_data_class "array.kpoints" [("kpoints", kpoints)] =
       Ok (Some kpoints_node) →
     ∃ node,
       compose get_data_class "array.bands" inputs = Ok (Some node) ∧
       node_cls node = cls ∧
       node_calls node =
         [set_kpointsdata kpoints_node; set_bands eigenvalues occupancies] ∧
       get_kpointsdata node = Some kpoints_node ∧
       get_bands node = Some (eigenvalues, occupancies)) ∧
  (∀ e,
     compose get_data_class "array.kpoints" [("kpoints", kpoints)] = Raise e →
     compose get_data_class "array.bands" inputs = Raise e).
Proof.
  intros Hcls Hk He Ho.
  assert (compose get_data_class "array.kpoints" [("kpoints", kpoints)] =
          Some <$> _compose_array_kpoints get_data_class "array.kpoints"
                     [("kpoints", kpoints)]) as -> by reflexivity.
  assert (compose get_data_class "array.bands" inputs =
          Some <$> _compose_array_bands get_data_class "array.bands" inputs)
    as -> by reflexivity.
  unfold _compose_array_bands, instantiate, dict_getitem.
  rewrite Hcls, Hk, He, Ho. simpl.
  destruct (_compose_array_kpoints get_data_class "array.kpoints" _) as [kp|e0]; simpl.
  - split; [|done]. intros kpoints_node ?. simplify_eq.
    eexists. split; [done|]. repeat split.
  - split; [done|]. intros e H. exact H.
Qed.

(** C8. An automatic mesh with divisions [[2,2,2]] and shifts [[0,0,0]]
    composes to a k-points node with that mesh and that offset. *)
Theorem automatic_kpoints_mesh_is_kept cls key value :
  get_data_class "array.kpoints" = Ok cls →
  py_getitem value "mode" = Ok (PStr "automatic") →
  py_get value "divisions" = Ok (PList [PInt 2; PInt 2; PInt 2]) →
  py_get value "shifts" = Ok (PList [PInt 0; PInt 0; PInt 0]) →
  ∃ node,
    compose get_data_class "array.kpoints" [(key, value)] = Ok (Some node) ∧
    node_cls node = cls ∧
    node_calls node =
      [set_kpoints_mesh (PList [PInt 2; PInt 2; PInt 2]) (PList [PInt 0; PInt 0; PInt 0])] ∧
    get_kpoints_mesh node =
      Some (PList [PInt 2; PInt 2; PInt 2], PList [PInt 0; PInt 0; PInt 0]).
Proof.
  intros Hcls Hmode Hmesh Hshifts.
  assert (compose get_data_class "array.kpoints" [(key, value)] =
          Some <$> _compose_array_kpoints get_data_class "array.kpoints" [(key, value)])
    as -> by reflexivity.
  rewrite (_compose_array_kpoints_automatic _ _ _ _ _ _ Hcls Hmode Hmesh Hshifts).
  eexists. split; [done|]. repeat split.
Qed.

Lemma compose_dict_content cls inputs :
  get_data_class "dict" = Ok cls →
  NoDup (dict_keys inputs) →
  ∃ node,
    compose get_data_class "dict" inputs = Ok (Some node) ∧
    node_cls node = cls ∧ get_dict node = inputs.
Proof.
  intros Hcls Hnd.
  assert (compose get_data_class "dict" inputs =
          Some <$> _compose_dict get_data_class "dict" inputs) as -> by reflexivity.
  unfold _compose_dict, instantiate. rewrite Hcls. simpl.
  eexists. split; [done|]. split; [done|].
  unfold get_dict. simpl. by apply dict_update_empty.
Qed.

(** C9. The dict node composed from [{"total_energies": {"energy": -1.0}}]
    holds that dictionary. *)
Theorem dict_node_holds_the_inputs cls :
  get_data_class "dict" = Ok cls →
  ∃ node,
    compose get_data_class "dict"
      [("total_energies", PDict [("energy", PFloat (-1)%float)])] = Ok (Some node) ∧
    node_cls node = cls ∧
    get_dict node = [("total_energies", PDict [("energy", PFloat (-1)%float)])].
Proof.
  intros Hcls. apply compose_dict_content; [done|].
  simpl. apply NoDup_singleton.
Qed.

(** The loop of the single-file composers ends on the node of the last
    key, or on the node it started with when there is no key. *)
Lemma single_file_loop_last node_type cls inputs items node :
  get_data_class node_type = Ok cls →
  NoDup (dict_keys inputs) →
  items ⊆ inputs →
  single_file_loop get_data_class node_type inputs (dict_keys items) node =
    Ok (match last items with
        | Some (_, value) => Some (DataNode cls (Some value) [])
        | None => node
        end).
Proof.
  intros Hcls Hnd. revert node.
  induction items as [|[k v] items IH]; intros node Hsub; [done|].
  simpl. unfold dict_getitem.
  rewrite (dict_lookup_elem_of inputs k v Hnd) by (apply Hsub; by left).
  simpl. unfold instantiate_file. rewrite Hcls. simpl.
  rewrite IH by (intros x Hx; apply Hsub; by right).
  rewrite last_cons. by destruct (last items) as [[]|].
Qed.

(** C10. The wave function and charge density composers return [None]
    for empty inputs, the node made from the value for a single entry,
    and in general the node made from the value of the last key. *)
Theorem single_file_composers_keep_the_last_value node_type :
  node_type = "vasp.wavefun" ∨ node_type = "vasp.chargedensity" →
  compose get_data_class node_type [] = Ok None ∧
  ∀ cls,
    get_data_class node_type = Ok cls →
    (∀ key value,
       compose get_data_class node_type [(key, value)] =
         Ok (Some (DataNode cls (Some value) []))) ∧
    (∀ inputs key value,
       NoDup (dict_keys (inputs ++ [(key, value)])) →
       compose get_data_class node_type (inputs ++ [(key, value)]) =
         Ok (Some (DataNode cls (Some value) []))).
Proof.
  intros Htype.
  assert (∀ inputs, compose get_data_class node_type inputs =
            single_file_loop get_data_class node_type inputs (dict_keys inputs) None)
    as Hcompose by (intros inputs; by destruct Htype as [-> | ->]).
  split; [by rewrite Hcompose|]. intros cls Hcls.
  assert (∀ inputs key value,
            NoDup (dict_keys (inputs ++ [(key, value)])) →
            compose get_data_class node_type (inputs ++ [(key, value)]) =
              Ok (Some (DataNode cls (Some value) []))) as Hlast.
  { intros inputs key value Hnd. rewrite Hcompose.
    rewrite (single_file_loop_last _ cls _ _ _ Hcls Hnd) by done.
    by rewrite last_snoc. }
  split; [|done].
  intros key value. apply (Hlast [] key value). simpl. apply NoDup_singleton.
Qed.

End composers.

Lemma bands_kpoints_are_composed_independently_witness :
  ∃ node,
    NodeComposer.compose Sample.get_data_class "array.bands" Sample.bands_inputs =
      Ok (Some node) ∧
    get_kpointsdata node =
      Some (DataNode (DataFactory "array.kpoints") None
              [set_kpoints_mesh (PList [PInt 2; PInt 2; PInt 2])
                                (PList [PInt 0; PInt 0; PInt 0])]).
Proof.
  destruct (proj1 (bands_kpoints_are_composed_independently Sample.get_data_class
                     (DataFactory "array.bands") Sample.bands_inputs Sample.mesh222
                     (PList [PList [PFloat (-1)%float; PFloat 2%float]])
                     (PList [PList [PFloat 1%float; PFloat 0%float]])
                     eq_refl eq_refl eq_refl eq_refl)
              _ eq_refl) as (node & Hnode & _ & _ & Hk & _).
  by exists node.
Defined.

Lemma automatic_kpoints_mesh_is_kept_witness :
  ∃ node,
    NodeComposer.compose Sample.get_data_class "array.kpoints"
      [("kpoints", Sample.mesh222)] = Ok (Some node) ∧
    get_kpoints_mesh node =
      Some (PList [PInt 2; PInt 2; PInt 2], PList [PInt 0; PInt 0; PInt 0]).
Proof.
  destruct (automatic_kpoints_mesh_is_kept Sample.get_data_class
              (DataFactory "array.kpoints") "kpoints" Sample.mesh222
              eq_refl eq_refl eq_refl eq_refl) as (node & Hnode & _ & _ & Hmesh).
  by exists node.
Defined.

Lemma dict_node_holds_the_inputs_witness :
  ∃ node,
    NodeComposer.compose Sample.get_data_class "dict" Sample.energies = Ok (Some node) ∧
    get_dict node = Sample.energies.
Proof.
  destruct (dict_node_holds_the_inputs Sample.get_data_class (DataFactory "dict") eq_refl)
    as (node & Hnode & _ & Hdict).
  by exists node.
Defined.

Lemma single_file_composers_keep_the_last_value_witness :
  NodeComposer.compose Sample.get_data_class "vasp.wavefun" [] = Ok None ∧
  NodeComposer.compose Sample.get_data_class "vasp.wavefun"
    [("wavecar", PStr "WAVECAR")] =
    Ok (Some (DataNode (DataFactory "vasp.wavefun") (Some (PStr "WAVECAR")) [])).
Proof.
  destruct (single_file_composers_keep_the_last_value Sample.get_data_class
              "vasp.wavefun" (or_introl eq_refl)) as (Hempty & Hnode).
  destruct (Hnode (DataFactory "vasp.wavefun") eq_refl) as (Hone & _).
  split; [exact Hempty | exact (Hone "wavecar" (PStr "WAVECAR"))].
Defined.

(** * Further properties of the parser manager *)

Section manager_more.
Import ParserManager.

Implicit Types (self : ParserManager.t) (registry : ParsableQuantities).

Lemma list_remove_first (quantity : string) before after :
  quantity ∉ before →
  list_remove quantity (before ++ quantity :: after) = before ++ after.
Proof.
  induction before as [|x l IH]; simpl; intros Hq.
  - by destruct (decide (quantity = quantity)).
  - apply not_elem_of_cons in Hq as [Hne Hq].
    destruct (decide (x = quantity)); [congruence|]. by rewrite IH.
Qed.

(** X1. [remove] takes the first occurrence of the name out of the list
    and keeps the rest in order. *)
Theorem remove_drops_first_occurrence self quantity before after :
  quantity ∉ before →
  _quantities_to_parse self = before ++ quantity :: after →
  quantities_to_parse (remove self quantity) = before ++ after ∧
  _node (remove self quantity) = _node self ∧
  _vasp_parser_logger (remove self quantity) = _vasp_parser_logger self.
Proof.
  intros Hq Hl. unfold remove, quantities_to_parse. rewrite Hl.
  destruct (decide (quantity ∈ before ++ quantity :: after)) as [_|Hn].
  - simpl. by rewrite list_remove_first.
  - exfalso. apply Hn, elem_of_app. right. by left.
Qed.

Lemma remove_drops_first_occurrence_witness :
  quantities_to_parse
    (remove (with_quantities_to_parse Sample.manager ["kpoints"; "structure"; "kpoints"])
            "structure") = ["kpoints"] ++ ["kpoints"].
Proof.
  apply (remove_drops_first_occurrence
           (with_quantities_to_parse Sample.manager ["kpoints"; "structure"; "kpoints"])
           "structure" ["kpoints"] ["kpoints"]).
  - intros H. apply elem_of_cons in H as [H|H]; [discriminate H | by apply elem_of_nil in H].
  - reflexivity.
Defined.

(** [remove] of a name that is not in the list changes nothing. *)
Lemma remove_absent self quantity :
  quantity ∉ _quantities_to_parse self → remove self quantity = self.
Proof. intros H. unfold remove. by destruct (decide (quantity ∈ _quantities_to_parse self)). Qed.

Lemma log_warning_frame self self' w :
  log_warning self w = Ok self' →
  _node self' = _node self ∧
  _quantities_to_parse self' = _quantities_to_parse self ∧
  is_Some (_vasp_parser_logger self) ∧ is_Some (_vasp_parser_logger self').
Proof.
  unfold log_warning. destruct (_vasp_parser_logger self) as [l|] eqn:Hl; [|done].
  intros ?; simplify_eq. simpl. split_and!; eauto.
Qed.

Lemma _add_quantity_to_parse_node self quantities :
  _node (_add_quantity_to_parse self quantities).1 = _node self.
Proof.
  induction quantities as [|q l IH]; simpl; [done|]. by destruct (is_parsable q).
Qed.

(** A turn of the loop keeps the node, and the logger stays or stays away. *)
Lemma visit_quantity_name_frame registry self self' quantity_name :
  visit_quantity_name registry self quantity_name = Ok self' →
  _node self' = _node self ∧
  (is_Some (_vasp_parser_logger self') ↔ is_Some (_vasp_parser_logger self)).
Proof.
  unfold visit_quantity_name. intros H.
  destruct (get_by_name registry quantity_name) as [quantity|].
  2: { apply log_warning_frame in H as (? & _ & ? & ?). split; [done|]. tauto. }
  pose proof (_add_quantity_to_parse_logger self
                (get_equivalent_quantities registry quantity_name)) as Hl.
  pose proof (_add_quantity_to_parse_node self
                (get_equivalent_quantities registry quantity_name)) as Hn.
  destruct (_add_quantity_to_parse self _) as [s b]; simpl in *.
  destruct b; [simplify_eq; by rewrite Hl|].
  inv_bind H. inv_bind H.
  apply log_warning_frame in Ha0 as (Hn0 & _ & Hs & Hs0).
  rewrite Hl in Hs.
  destruct (scan_missing_files _ _).
  - apply log_warning_frame in H as (Hn1 & _ & _ & Hs1).
    split; [congruence | tauto].
  - simplify_eq. split; [congruence | tauto].
Qed.

Lemma visit_quantity_names_frame registry names self self' :
  visit_quantity_names registry self names = Ok self' →
  _node self' = _node self ∧
  (is_Some (_vasp_parser_logger self') ↔ is_Some (_vasp_parser_logger self)).
Proof.
  revert self. induction names as [|q l IH]; intros self H; simpl in *.
  - by simplify_eq.
  - inv_bind H. apply IH in H as [Hn Hl].
    apply visit_quantity_name_frame in Ha as [Hn' Hl'].
    split; [congruence | tauto].
Qed.

(** X2. Running [setup] again on the manager it returned succeeds and
    arrives at the same list: the list is started afresh each time, only
    the log keeps growing. *)
Theorem setup_again_gives_the_same_list self names registry self1 :
  setup self (Some names) (Some registry) = Ok self1 →
  ∃ self2, setup self1 (Some names) (Some registry) = Ok self2 ∧
           quantities_to_parse self2 = quantities_to_parse self1.
Proof.
  rewrite !setup_Some. intros H1.
  pose proof (visit_quantity_names_frame _ _ _ _ H1) as [Hn Hl]. simpl in Hn, Hl.
  assert (same_up_to_log (with_quantities_to_parse self1 [])
                         (with_quantities_to_parse self [])) as Hsame
    by (split_and!; simpl; done).
  pose proof (same_up_to_log_visit_names registry names _ _ Hsame) as Hrel.
  rewrite H1 in Hrel.
  destruct (visit_quantity_names registry (with_quantities_to_parse self1 []) names)
    as [self2|e]; simpl in Hrel; [|done].
  exists self2. split; [done|]. unfold quantities_to_parse. by destruct Hrel as (_ & -> & _).
Qed.

Lemma setup_again_gives_the_same_list_witness :
  ∃ self2,
    setup (with_logger (with_quantities_to_parse Sample.manager ["poscar-structure"])
                       [NotImplementedWarning "band_gap"])
          (Some ["structure"; "band_gap"]) (Some Sample.registry) = Ok self2 ∧
    quantities_to_parse self2 = ["poscar-structure"].
Proof.
  apply (setup_again_gives_the_same_list Sample.manager ["structure"; "band_gap"]
           Sample.registry).
  reflexivity.
Defined.

(** X3. Every name [setup] puts on the list is the original name of a
    parsable quantity among the equivalents of a requested name that the
    registry knows: nothing unparsable and nothing unrequested is ever
    scheduled. *)
Theorem scheduled_names_are_parsable self names registry self' scheduled :
  setup self (Some names) (Some registry) = Ok self' →
  scheduled ∈ quantities_to_parse self' →
  ∃ quantity_name quantity,
    quantity_name ∈ names ∧
    is_Some (get_by_name registry quantity_name) ∧
    quantity ∈ get_equivalent_quantities registry quantity_name ∧
    is_parsable quantity = true ∧
    original_name quantity = scheduled.
Proof.
  rewrite setup_Some. intros H Hin.
  unfold quantities_to_parse in Hin.
  rewrite (visit_quantity_names_chosen _ _ _ _ H) in Hin. simpl in Hin.
  apply list_elem_of_bind in Hin as (q & Hc & Hq).
  exists q. unfold chosen in Hc.
  destruct (get_by_name registry q) as [known|] eqn:Hk; [|by apply elem_of_nil in Hc].
  destruct (List.find is_parsable (get_equivalent_quantities registry q)) as [e|] eqn:He;
    [|by apply elem_of_nil in Hc].
  apply list_elem_of_singleton in Hc. apply List.find_some in He as [He1 He2].
  exists e. split_and!; eauto. by apply list_elem_of_In.
Qed.

Lemma scheduled_names_are_parsable_witness :
  ∃ quantity_name quantity,
    quantity_name ∈ ["structure"; "eigenvalues"] ∧
    is_Some (get_by_name Sample.registry quantity_name) ∧
    quantity ∈ get_equivalent_quantities Sample.registry quantity_name ∧
    is_parsable quantity = true ∧
    original_name quantity = "poscar-structure".
Proof.
  eapply (scheduled_names_are_parsable Sample.manager ["structure"; "eigenvalues"]
            Sample.registry).
  - reflexivity.
  - simpl. by left.
Defined.

(** X4. The list for a concatenation of requests is the concatenation of
    the lists: names are not merged, a name chosen twice is there twice. *)
Theorem setup_lists_concatenate self names1 names2 registry self1 self2 self12 :
  setup self (Some names1) (Some registry) = Ok self1 →
  setup self (Some names2) (Some registry) = Ok self2 →
  setup self (Some (names1 ++ names2)) (Some registry) = Ok self12 →
  quantities_to_parse self12 = quantities_to_parse self1 ++ quantities_to_parse self2.
Proof.
  rewrite !setup_Some. intros H1 H2 H12. unfold quantities_to_parse.
  rewrite (visit_quantity_names_chosen _ _ _ _ H1), (visit_quantity_names_chosen _ _ _ _ H2),
    (visit_quantity_names_chosen _ _ _ _ H12).
  simpl. by rewrite bind_app.
Qed.

Lemma setup_lists_concatenate_witness :
  ["poscar-structure"; "poscar-structure"] = ["poscar-structure"] ++ ["poscar-structure"].
Proof.
  apply (setup_lists_concatenate Sample.manager ["structure"] ["poscar-structure"]
           Sample.registry
           (with_quantities_to_parse Sample.manager ["poscar-structure"])
           (with_quantities_to_parse Sample.manager ["poscar-structure"])
           (with_quantities_to_parse Sample.manager ["poscar-structure"; "poscar-structure"]));
    reflexivity.
Defined.

Lemma visit_parsable_quiet registry self quantity_name :
  is_Some (get_by_name registry quantity_name) →
  Exists (λ quantity, is_parsable quantity = true)
         (get_equivalent_quantities registry quantity_name) →
  ∃ self', visit_quantity_name registry self quantity_name = Ok self' ∧
           _node self' = _node self ∧
           _vasp_parser_logger self' = _vasp_parser_logger self.
Proof.
  intros [known Hk] He. unfold visit_quantity_name. rewrite Hk.
  destruct (first_parsable_split (get_equivalent_quantities registry quantity_name))
    as [Hnone | (b & x & a & Heq & Hb & Hx)].
  - exfalso. apply Exists_exists in He as (e & Hin & Hp).
    pose proof (proj1 (Forall_forall _ _) Hnone e Hin) as Hnp.
    unfold not_parsable in Hnp. congruence.
  - rewrite Heq, (_add_quantity_to_parse_first _ _ _ _ Hb Hx). eauto.
Qed.

(** X5. When every requested name is known and has a parsable equivalent,
    [setup] asks neither the node nor the logger for anything: it returns
    for any manager, also one built without them, and logs nothing. *)
Theorem setup_needs_no_collaborators self names registry :
  Forall (λ quantity_name,
            is_Some (get_by_name registry quantity_name) ∧
            Exists (λ quantity, is_parsable quantity = true)
                   (get_equivalent_quantities registry quantity_name)) names →
  ∃ self', setup self (Some names) (Some registry) = Ok self' ∧
           _node self' = _node self ∧
           _vasp_parser_logger self' = _vasp_parser_logger self.
Proof.
  rewrite setup_Some. intros H.
  assert (∀ s, ∃ s', visit_quantity_names registry s names = Ok s' ∧
                     _node s' = _node s ∧
                     _vasp_parser_logger s' = _vasp_parser_logger s) as Hloop.
  { induction H as [|q l [Hk He] _ IH]; intros s; simpl; [eauto|].
    destruct (visit_parsable_quiet registry s q Hk He) as (s1 & -> & Hn1 & Hl1).
    simpl. destruct (IH s1) as (s2 & -> & Hn2 & Hl2).
    exists s2. split_and!; [done | congruence..]. }
  destruct (Hloop (with_quantities_to_parse self [])) as (s' & -> & Hn & Hl). eauto.
Qed.

Lemma setup_needs_no_collaborators_witness :
  ∃ self',
    setup (__init__ None None) (Some ["structure"; "kpoints"]) (Some Sample.registry) =
      Ok self' ∧
    _node self' = None ∧ _vasp_parser_logger self' = None.
Proof.
  apply (setup_needs_no_collaborators (__init__ None None) ["structure"; "kpoints"]
           Sample.registry).
  apply Forall_cons_2; [|apply Forall_cons_2; [|apply Forall_nil_2]].
  - split; [simpl; eauto|]. apply Exists_cons_tl, Exists_cons_hd. reflexivity.
  - split; [simpl; eauto|]. apply Exists_cons_hd. reflexivity.
Defined.

(** Whatever is raised in the loop is an attribute error. *)
Lemma visit_quantity_name_raises registry self quantity_name e :
  visit_quantity_name registry self quantity_name = Raise e → e = AttributeError.
Proof.
  unfold visit_quantity_name, the_node, log_warning.
  destruct (get_by_name registry quantity_name).
  2: { destruct (_vasp_parser_logger self); by intros ?; simplify_eq. }
  destruct (_add_quantity_to_parse self _) as [s b]. destruct b; [done|].
  destruct (_node s); simpl; [|by intros ?; simplify_eq].
  destruct (_vasp_parser_logger s); simpl; [|by intros ?; simplify_eq].
  destruct (scan_missing_files _ _); by intros ?; simplify_eq.
Qed.

Lemma visit_quantity_names_raises registry names self e :
  visit_quantity_names registry self names = Raise e → e = AttributeError.
Proof.
  revert self. induction names as [|q l IH]; intros self; simpl; [done|].
  destruct (visit_quantity_name registry self q) as [s|e0] eqn:Hv; simpl.
  - apply IH.
  - intros ?; simplify_eq. by eapply visit_quantity_name_raises.
Qed.

(** X6. A manager built without a node cannot report missing files: as
    soon as one requested name is known but has no parsable equivalent,
    [setup] raises an attribute error. *)
Theorem setup_without_node_raises self names registry quantity_name :
  _node self = None →
  quantity_name ∈ names →
  is_Some (get_by_name registry quantity_name) →
  Forall not_parsable (get_equivalent_quantities registry quantity_name) →
  setup self (Some names) (Some registry) = Raise AttributeError.
Proof.
  rewrite setup_Some. intros Hn Hin [known Hk] Hnone.
  assert (∀ s, _node s = None →
               ∀ s', visit_quantity_names registry s names ≠ Ok s') as Hno.
  { clear Hn. induction names as [|q l IH]; intros s Hs s' H;
      [by apply elem_of_nil in Hin|].
    simpl in H. inv_bind H.
    apply elem_of_cons in Hin as [<-|Hin].
    - unfold visit_quantity_name in Ha.
      rewrite Hk, (_add_quantity_to_parse_none _ _ Hnone) in Ha.
      unfold the_node in Ha. by rewrite Hs in Ha.
    - apply (IH Hin a) with s'; [|done].
      apply visit_quantity_name_frame in Ha as [-> _]. done. }
  destruct (visit_quantity_names registry (with_quantities_to_parse self []) names)
    as [s'|e] eqn:Hv.
  - exfalso. by apply (Hno (with_quantities_to_parse self []) Hn s').
  - f_equal. by eapply visit_quantity_names_raises.
Qed.

Lemma setup_without_node_raises_witness :
  setup (__init__ None (Some [])) (Some ["kpoints"; "eigenvalues"]) (Some Sample.registry) =
    Raise AttributeError.
Proof.
  apply (setup_without_node_raises (__init__ None (Some [])) ["kpoints"; "eigenvalues"]
           Sample.registry "eigenvalues").
  - reflexivity.
  - right. by left.
  - simpl. eauto.
  - by repeat constructor.
Defined.

(** X7. The second warning of a turn is sound: with no parsable
    equivalent the turn logs the missing files and then at most one more
    warning; a file that warning names is a missing file that is in
    neither retrieve list, and there is no such warning when every missing
    file is in one of the lists. *)
Theorem unscheduled_file_warning_is_sound registry self quantity_name quantity node log :
  get_by_name registry quantity_name = Some quantity →
  Forall not_parsable (get_equivalent_quantities registry quantity_name) →
  _node self = Some node →
  _vasp_parser_logger self = Some log →
  let missing_files := get_missing_files registry quantity_name in
  let retrieve_list := get_retrieve_temporary_list node ++ get_retrieve_list node in
  ∃ more,
    visit_quantity_name registry self quantity_name =
      Ok (with_logger self
            (log ++ MissingFilesWarning quantity_name missing_files :: more)) ∧
    (length more ≤ 1)%nat ∧
    (∀ w, w ∈ more →
          ∃ item, w = NotInRetrieveListWarning item ∧
                  item ∈ missing_files ∧ item ∉ retrieve_list) ∧
    (Forall (λ item, item ∈ retrieve_list) missing_files → more = []) ∧
    (∀ item, item ∈ missing_files → item ∉ retrieve_list → more ≠ []).
Proof.
  intros Hq Hnone Hn Hl missing_files retrieve_list.
  rewrite (visit_not_parsable _ _ _ _ _ _ Hq Hnone Hn Hl).
  fold missing_files retrieve_list.
  destruct (last (filter (λ item, item ∉ retrieve_list) missing_files)) as [f|] eqn:Hlast.
  - exists [NotInRetrieveListWarning f]. split; [done|].
    assert (f ∈ filter (λ item, item ∉ retrieve_list) missing_files) as Hf.
    { apply last_Some in Hlast as [l' ->]. apply elem_of_app. right. by left. }
    apply list_elem_of_filter in Hf as [Hf1 Hf2].
    split_and!; [simpl; lia | | | done].
    + intros w Hw. apply list_elem_of_singleton in Hw as ->. eauto.
    + intros Hall. exfalso. apply Hf1.
      by apply (proj1 (Forall_forall _ _) Hall f).
  - exists []. split; [done|]. split_and!; [simpl; lia | | done | ].
    + intros w Hw. by apply elem_of_nil in Hw.
    + intros item Hi Hni. exfalso.
      assert (item ∈ filter (λ item, item ∉ retrieve_list) missing_files) as Hf
        by by apply list_elem_of_filter.
      apply last_None in Hlast. rewrite Hlast in Hf. by apply elem_of_nil in Hf.
Qed.

Lemma unscheduled_file_warning_is_sound_witness :
  ∃ more,
    visit_quantity_name Sample.registry Sample.manager "eigenvalues" =
      Ok (with_logger Sample.manager
            ([] ++ MissingFilesWarning "eigenvalues" ["vasprun.xml"; "EIGENVAL"] :: more)) ∧
    (length more ≤ 1)%nat.
Proof.
  destruct (unscheduled_file_warning_is_sound Sample.registry Sample.manager
              "eigenvalues" Sample.eigenvalues Sample.calc_node [] eq_refl
              ltac:(by repeat constructor) eq_refl eq_refl) as (more & H1 & H2 & _).
  by exists more.
Defined.

End manager_more.

(** * Further properties of the collected inputs *)

Section file_parser.
Context (Q : quantity_module) (file_parser : FileParser).

Lemma file_parser_table_fold (items : pydict)
    (acc : ParsableQuantities * gmap string pyval) (key : string) :
  (foldl (λ (acc : ParsableQuantities * gmap string pyval) (item : string * pyval),
            let '(parsable_quantities, parsed_quantities) := acc in
            let '(key, value) := item in
            (add_parsable_quantity Q parsable_quantities key value,
             <[key := get_quantity file_parser key]> parsed_quantities))
         acc items).2 !! key =
  if decide (key ∈ dict_keys items) then Some (get_quantity file_parser key)
  else acc.2 !! key.
Proof.
  revert acc. induction items as [|[k v] items IH]; intros [pq pd]; [done|].
  simpl. rewrite IH. simpl.
  destruct (decide (key ∈ dict_keys items)) as [Hin|Hnin].
  - destruct (decide (key ∈ k :: dict_keys items)) as [|Hn]; [done|].
    exfalso. apply Hn. by right.
  - destruct (decide (k = key)) as [->|Hne].
    + rewrite lookup_insert_eq.
      destruct (decide (key ∈ key :: dict_keys items)) as [|Hn]; [done|].
      exfalso. apply Hn. by left.
    + rewrite lookup_insert_ne by done.
      destruct (decide (key ∈ k :: dict_keys items)) as [Hin|]; [|done].
      apply elem_of_cons in Hin as [->|Hin]; done.
Qed.

(** X8. The table taken from a file parser has an entry for exactly the
    keys of its [parsable_items], each holding what [get_quantity] returns
    for the key, [None] included. *)
Theorem file_parser_table key :
  (_get_quantities_from_file_parser Q file_parser).2 !! key =
  if decide (key ∈ dict_keys (parsable_items file_parser))
  then Some (get_quantity file_parser key)
  else None.
Proof.
  unfold _get_quantities_from_file_parser. rewrite file_parser_table_fold. simpl.
  by rewrite lookup_empty.
Qed.

End file_parser.

Section dict_more.
Implicit Types (d : pydict) (k : string) (v : pyval).

Lemma dict_set_keys d k v :
  dict_keys (dict_set d k v) =
  if decide (k ∈ dict_keys d) then dict_keys d else dict_keys d ++ [k].
Proof.
  induction d as [|[k0 v0] d IH]; simpl.
  - destruct (decide (k ∈ [])) as [H|]; [by apply elem_of_nil in H | done].
  - destruct (decide (k0 = k)) as [->|Hne]; simpl.
    + destruct (decide (k ∈ k :: dict_keys d)) as [|Hn]; [done|].
      exfalso. apply Hn. by left.
    + unfold dict_keys in *. rewrite IH.
      destruct (decide (k ∈ d.*1)) as [Hin|Hnin].
      * destruct (decide (k ∈ k0 :: d.*1)) as [|Hn]; [done|].
        exfalso. apply Hn. by right.
      * destruct (decide (k ∈ k0 :: d.*1)) as [Hin|]; [|done].
        apply elem_of_cons in Hin as [->|Hin]; done.
Qed.

Lemma dict_set_NoDup d k v : NoDup (dict_keys d) → NoDup (dict_keys (dict_set d k v)).
Proof.
  intros Hnd. rewrite dict_set_keys.
  destruct (decide (k ∈ dict_keys d)) as [|Hnin]; [done|].
  apply NoDup_app. split_and!; [done | | apply NoDup_singleton].
  intros x Hx Hx'. apply list_elem_of_singleton in Hx' as ->. done.
Qed.

End dict_more.

Section collect_more.
Implicit Types (registry : ParsableQuantities) (parsed : gmap string pyval).

Lemma collect_loop_NoDup registry parsed names inputs0 inputs :
  collect_loop registry parsed names inputs0 = Ok inputs →
  NoDup (dict_keys inputs0) → NoDup (dict_keys inputs).
Proof.
  revert inputs0. induction names as [|q l IH]; intros inputs0 H Hnd; simpl in H.
  - by simplify_eq.
  - inv_bind H. apply (IH _ H).
    rewrite collect_quantity_contribution in Ha.
    destruct (contribution registry parsed q); [|by simplify_eq].
    inv_bind Ha. simplify_eq. by apply dict_set_NoDup.
Qed.

Lemma collect_quantity_raises registry parsed inputs quantity_name e :
  collect_quantity registry parsed inputs quantity_name = Raise e → e = AttributeError.
Proof.
  rewrite collect_quantity_contribution.
  destruct (contribution registry parsed quantity_name); [|done].
  destruct (get_by_name registry quantity_name); simpl; [done|].
  by intros ?; simplify_eq.
Qed.

Lemma collect_loop_raises registry parsed names inputs e :
  collect_loop registry parsed names inputs = Raise e → e = AttributeError.
Proof.
  revert inputs. induction names as [|q l IH]; intros inputs; simpl; [done|].
  destruct (collect_quantity registry parsed inputs q) as [i|e0] eqn:Hq; simpl.
  - apply IH.
  - intros ?; simplify_eq. by eapply collect_quantity_raises.
Qed.

Lemma is_none_false v : v ≠ PNone → is_none v = false.
Proof. by destruct v. Qed.

End collect_more.

Section collected_inputs_more.
Context (Q : quantity_module) (parsable_quantities : ParsableQuantities)
        (parsed_quantities : gmap string pyval) (file_parser : option FileParser).

Let registry := (select_quantities Q parsable_quantities parsed_quantities file_parser).1.
Let parsed := (select_quantities Q parsable_quantities parsed_quantities file_parser).2.

(** X9. A required name that the registry knows and that has a value of
    its own gets that value under its output key, whatever its equivalents
    hold, as long as no later required name has the same output key. *)
Theorem own_value_is_used node_type quantity_names inputs
    before quantity_name after quantity :
  get_node_composer_inputs Q parsable_quantities parsed_quantities file_parser
    node_type quantity_names = Ok inputs →
  resolve_quantity_names node_type quantity_names = Ok (before ++ quantity_name :: after) →
  get_by_name registry quantity_name = Some quantity →
  parsed_get parsed quantity_name ≠ PNone →
  (∀ other quantity', other ∈ after → get_by_name registry other = Some quantity' →
                      name quantity' ≠ name quantity) →
  dict_lookup inputs (name quantity) = Some (parsed_get parsed quantity_name).
Proof.
  rewrite get_node_composer_inputs_eq. fold registry parsed.
  unfold _collect_quantity_data. intros H Hnames Hq Hown Hafter.
  rewrite Hnames in H. simpl in H.
  rewrite collect_loop_app in H. inv_bind H. simpl in H. inv_bind H.
  rewrite (collect_loop_keeps _ _ _ _ _ _ H Hafter).
  unfold collect_quantity in Ha0.
  rewrite (is_none_false _ Hown), Hq in Ha0. simpl in Ha0. simplify_eq.
  rewrite dict_lookup_set. by destruct (decide (name quantity = name quantity)).
Qed.

(** X10. A required name that has a value of its own but that the
    registry does not know makes the collection raise an attribute error:
    there is no quantity to take the output key from. *)
Theorem unknown_name_with_value_raises node_type quantity_names names quantity_name :
  resolve_quantity_names node_type quantity_names = Ok names →
  quantity_name ∈ names →
  get_by_name registry quantity_name = None →
  parsed_get parsed quantity_name ≠ PNone →
  get_node_composer_inputs Q parsable_quantities parsed_quantities file_parser
    node_type quantity_names = Raise AttributeError.
Proof.
  rewrite get_node_composer_inputs_eq. fold registry parsed.
  unfold _collect_quantity_data. intros -> Hin Hq Hown. simpl.
  apply list_elem_of_split in Hin as (before & after & ->).
  destruct (collect_loop registry parsed (before ++ quantity_name :: after) [])
    as [inputs|e] eqn:H.
  - exfalso. rewrite collect_loop_app in H. inv_bind H. simpl in H. inv_bind H.
    unfold collect_quantity in Ha0.
    by rewrite (is_none_false _ Hown), Hq in Ha0.
  - f_equal. by eapply collect_loop_raises.
Qed.

(** X11. What is collected can be handed to the dict composer as it is:
    the node it returns holds exactly the collected inputs. *)
Theorem collected_inputs_make_a_dict_node get_data_class cls node_type quantity_names
    inputs :
  get_node_composer_inputs Q parsable_quantities parsed_quantities file_parser
    node_type quantity_names = Ok inputs →
  get_data_class "dict" = Ok cls →
  ∃ node,
    NodeComposer.compose get_data_class "dict" inputs = Ok (Some node) ∧
    node_cls node = cls ∧ get_dict node = inputs.
Proof.
  rewrite get_node_composer_inputs_eq. unfold _collect_quantity_data.
  intros H Hcls. inv_bind H.
  apply compose_dict_content; [done|].
  eapply collect_loop_NoDup; [done|]. apply NoDup_nil_2.
Qed.

End collected_inputs_more.

Lemma own_value_is_used_witness :
  dict_lookup [("structure", PStr "from vasprun")] "structure" =
    Some (parsed_get (<["structure" := PStr "from vasprun"]> Sample.parsed_two)
                     "structure").
Proof.
  refine (own_value_is_used Sample.registry_builder Sample.registry
            (<["structure" := PStr "from vasprun"]> Sample.parsed_two) None
            "structure" None [("structure", PStr "from vasprun")]
            [] "structure" [] Sample.structure _ _ _ _ _).
  - reflexivity.
  - reflexivity.
  - reflexivity.
  - discriminate.
  - intros other quantity' Hin. by apply elem_of_nil in Hin.
Defined.

Lemma unknown_name_with_value_raises_witness :
  get_node_composer_inputs Sample.registry_builder Sample.registry
    {[ "band_gap" := PFloat 1%float ]} None "dict" (Some ["band_gap"]) =
  Raise AttributeError.
Proof.
  apply (unknown_name_with_value_raises Sample.registry_builder Sample.registry
           {[ "band_gap" := PFloat 1%float ]} None "dict" (Some ["band_gap"])
           ["band_gap"] "band_gap").
  - reflexivity.
  - by left.
  - reflexivity.
  - discriminate.
Defined.

Lemma collected_inputs_make_a_dict_node_witness :
  ∃ node,
    NodeComposer.compose Sample.get_data_class "dict"
      [("structure", PStr "from CONTCAR")] = Ok (Some node) ∧
    node_cls node = DataFactory "dict" ∧
    get_dict node = [("structure", PStr "from CONTCAR")].
Proof.
  apply (collected_inputs_make_a_dict_node Sample.registry_builder Sample.registry
           Sample.parsed_two None Sample.get_data_class (DataFactory "dict")
           "structure" None).
  - reflexivity.
  - reflexivity.
Defined.

(** * Further properties of the composers *)

Section composers_more.
Import NodeComposer.
Context (get_data_class : data_class_getter).

Lemma invoke_all_calls cls file calls cs :
  invoke_all (DataNode cls file calls) cs = DataNode cls file (calls ++ cs).
Proof.
  revert calls. induction cs as [|c cs IH]; intros calls; simpl.
  - by rewrite app_nil_r.
  - unfold invoke_all in *. simpl. rewrite IH. by rewrite <-app_assoc.
Qed.

Lemma invoke_all_app n cs1 cs2 :
  invoke_all (invoke_all n cs1) cs2 = invoke_all n (cs1 ++ cs2).
Proof. unfold invoke_all. by rewrite foldl_app. Qed.

(** A loop whose body makes the calls [f x] at [x] makes all of them, in
    the order of the list. *)
Lemma for_each_calls {A} (body : data_node → A → result data_node) (f : A → list call)
    (xs : list A) (n : data_node) :
  (∀ m x, x ∈ xs → body m x = Ok (invoke_all m (f x))) →
  for_each body xs n = Ok (invoke_all n (xs ≫= f)).
Proof.
  revert n. induction xs as [|x xs IH]; intros n Hbody; simpl; [done|].
  rewrite Hbody by by left. simpl.
  rewrite IH by (intros m y Hy; apply Hbody; by right).
  by rewrite invoke_all_app.
Qed.

Lemma for_each_fmap {A B} (body : data_node → B → result data_node) (g : A → B)
    (xs : list A) (n : data_node) :
  for_each body (g <$> xs) n = for_each (λ m x, body m (g x)) xs n.
Proof.
  revert n. induction xs as [|x xs IH]; intros n; simpl; [done|].
  destruct (body n (g x)); simpl; [apply IH | done].
Qed.

Lemma bind_singleton_fmap {A B} (g : A → B) (xs : list A) :
  xs ≫= (λ x, [g x]) = g <$> xs.
Proof.
  induction xs as [|x xs IH]; [done|].
  rewrite bind_cons, fmap_cons, IH. done.
Qed.

Lemma as_tables_keys tables : dict_keys (as_tables tables) = tables.*1.
Proof.
  unfold dict_keys, as_tables. rewrite <-list_fmap_compose. by apply list_fmap_ext.
Qed.

Lemma as_tables_getitem tables t :
  NoDup tables.*1 → t ∈ tables → dict_getitem (as_tables tables) t.1 = Ok (PDict t.2).
Proof.
  intros Hnd Hin. unfold dict_getitem.
  rewrite (dict_lookup_elem_of _ t.1 (PDict t.2)); [done | by rewrite as_tables_keys |].
  unfold as_tables. apply list_elem_of_fmap. by exists t.
Qed.

(** The loop shared by the array and the trajectory composer. *)
Lemma items_loop (inner : data_node → string * pyval → result data_node)
    (step : string * pyval → call) tables n :
  (∀ m kv, inner m kv = Ok (invoke m (step kv))) →
  NoDup tables.*1 →
  for_each (λ node item,
      value ← dict_getitem (as_tables tables) item;
      items ← py_items value;
      for_each inner items node)
    (dict_keys (as_tables tables)) n =
  Ok (invoke_all n (tables ≫= λ t, step <$> t.2)).
Proof.
  intros Hinner Hnd. rewrite as_tables_keys, for_each_fmap.
  apply for_each_calls. intros m t Ht.
  rewrite (as_tables_getitem _ _ Hnd Ht). simpl.
  rewrite (for_each_calls _ (λ kv, [step kv])) by (intros; apply Hinner).
  by rewrite bind_singleton_fmap.
Qed.

(** X12. Given inputs whose values are dictionaries, the array composer
    calls [set_array] once for every entry of every value, item by item
    and entry by entry in their order, and nothing else. *)
Theorem array_node_receives_every_entry cls tables :
  get_data_class "array" = Ok cls →
  NoDup tables.*1 →
  compose get_data_class "array" (as_tables tables) =
    Ok (Some (DataNode cls None (tables ≫= λ t, array_calls t.2))).
Proof.
  intros Hcls Hnd.
  assert (compose get_data_class "array" (as_tables tables) =
          Some <$> _compose_array get_data_class "array" (as_tables tables))
    as -> by reflexivity.
  unfold _compose_array, instantiate. rewrite Hcls. simpl.
  rewrite (items_loop _ (λ kv, set_array kv.1 kv.2) tables) by done.
  by rewrite invoke_all_calls.
Qed.

(** X13. The trajectory composer does the same, except that an entry
    under ["symbols"] goes to [set_attribute]: no array is ever set under
    that key. *)
Theorem trajectory_symbols_are_an_attribute cls tables :
  get_data_class "array.trajectory" = Ok cls →
  NoDup tables.*1 →
  compose get_data_class "array.trajectory" (as_tables tables) =
    Ok (Some (DataNode cls None (tables ≫= λ t, trajectory_calls t.2))) ∧
  ∀ value, set_array "symbols" value ∉ (tables ≫= λ t, trajectory_calls t.2).
Proof.
  intros Hcls Hnd. split.
  - assert (compose get_data_class "array.trajectory" (as_tables tables) =
            Some <$> _compose_array_trajectory get_data_class "array.trajectory"
                       (as_tables tables)) as -> by reflexivity.
    unfold _compose_array_trajectory, instantiate. rewrite Hcls. simpl.
    rewrite (items_loop _ (λ kv, if decide (kv.1 = "symbols")
                                 then set_attribute kv.1 kv.2
                                 else set_array kv.1 kv.2) tables);
      [by rewrite invoke_all_calls | | done].
    intros m kv. by destruct (decide (kv.1 = "symbols")).
  - intros value Hin. apply list_elem_of_bind in Hin as (t & Hin & _).
    unfold trajectory_calls in Hin. apply list_elem_of_fmap in Hin as (kv & Heq & _).
    destruct (decide (kv.1 = "symbols")) as [Hs|Hs]; [discriminate Heq|].
    injection Heq as Hk _. congruence.
Qed.

Lemma site_loop sites atoms n :
  Forall2 site_atom sites atoms →
  for_each (λ node site,
      position ← py_getitem site "position";
      symbols ← py_getitem site "symbol";
      name ← py_getitem site "kind_name";
      Ok (invoke node (append_atom position symbols name))) sites n =
  Ok (invoke_all n atoms).
Proof.
  intros H. revert n. induction H as [|site c sites atoms Hs _ IH]; intros n; [done|].
  destruct Hs as (p & s & k & Hp & Hsy & Hk & ->).
  simpl. rewrite Hp. simpl. rewrite Hsy. simpl. rewrite Hk. simpl. by rewrite IH.
Qed.

(** X14. The structure composer sets the cell from ["unitcell"] and then
    appends one atom per site of ["sites"], in their order, with the
    site's position, symbol and kind name. *)
Theorem structure_node_gets_cell_and_sites cls key value unitcell sites atoms :
  get_data_class "structure" = Ok cls →
  py_getitem value "unitcell" = Ok unitcell →
  py_getitem value "sites" = Ok (PList sites) →
  Forall2 site_atom sites atoms →
  compose get_data_class "structure" [(key, value)] =
    Ok (Some (DataNode cls None (set_cell unitcell :: atoms))).
Proof.
  intros Hcls Hcell Hsites Hatoms.
  assert (compose get_data_class "structure" [(key, value)] =
          Some <$> _compose_structure get_data_class "structure" [(key, value)])
    as -> by reflexivity.
  unfold _compose_structure, instantiate. rewrite Hcls. simpl.
  rewrite dict_getitem_single. simpl. rewrite Hcell. simpl. rewrite Hsites. simpl.
  rewrite (site_loop _ _ _ Hatoms). simpl. by rewrite invoke_all_calls.
Qed.

Lemma explicit_loop_kpoints (ks : list (list pyval * pyval * bool)) kpoint_list weights :
  explicit_loop (kpoint_of <$> ks) kpoint_list weights =
  Ok (kpoint_list ++ ((λ k, PList k.1.1) <$> ks), weights ++ ((λ k, k.1.2) <$> ks)).
Proof.
  revert kpoint_list weights.
  induction ks as [|k ks IH]; intros kpoint_list weights; simpl.
  - by rewrite !app_nil_r.
  - rewrite IH. by rewrite <-!app_assoc.
Qed.

(** X15. An explicit list of k-points composes to one [set_kpoints] call:
    the coordinates of all points in order, the weights of all points, or
    [None] when the first weight is [None], and cartesian when the first
    point is not direct. *)
Theorem explicit_kpoints_are_listed cls key value k ks :
  get_data_class "array.kpoints" = Ok cls →
  py_getitem value "mode" = Ok (PStr "explicit") →
  py_get value "points" = Ok (PList (kpoint_of <$> k :: ks)) →
  compose get_data_class "array.kpoints" [(key, value)] =
    Ok (Some (DataNode cls None
                [set_kpoints ((λ x, PList x.1.1) <$> k :: ks)
                             (if is_none k.1.2 then PNone
                              else PList ((λ x, x.1.2) <$> k :: ks))
                             (negb k.2)])).
Proof.
  intros Hcls Hmode Hpoints.
  assert (compose get_data_class "array.kpoints" [(key, value)] =
          Some <$> _compose_array_kpoints get_data_class "array.kpoints" [(key, value)])
    as -> by reflexivity.
  unfold _compose_array_kpoints, instantiate. rewrite Hcls. simpl.
  rewrite dict_getitem_single. simpl. rewrite Hmode. simpl.
  unfold kpoints_explicit. rewrite Hpoints. simpl.
  rewrite explicit_loop_kpoints. simpl. by destruct (is_none k.1.2).
Qed.

(** X16. What the k-points composer raises on a malformed input: a type
    error for a value that is no dictionary, [None] included; a key error
    without ["mode"]; in explicit mode a type error without ["points"] or
    with [None] there, and an index error for an empty list of points. *)
Theorem malformed_kpoints_raise cls key :
  get_data_class "array.kpoints" = Ok cls →
  (∀ value, (∀ d, value ≠ PDict d) →
     compose get_data_class "array.kpoints" [(key, value)] = Raise TypeError) ∧
  (∀ d, dict_lookup d "mode" = None →
     compose get_data_class "array.kpoints" [(key, PDict d)] = Raise KeyError) ∧
  (∀ d, dict_lookup d "mode" = Some (PStr "explicit") →
     dict_lookup d "points" = None ∨ dict_lookup d "points" = Some PNone →
     compose get_data_class "array.kpoints" [(key, PDict d)] = Raise TypeError) ∧
  (∀ d, dict_lookup d "mode" = Some (PStr "explicit") →
     dict_lookup d "points" = Some (PList []) →
     compose get_data_class "array.kpoints" [(key, PDict d)] = Raise IndexError).
Proof.
  intros Hcls.
  assert (∀ value, compose get_data_class "array.kpoints" [(key, value)] =
            Some <$> (mode ← py_getitem value "mode";
                      node ← (if py_eq_str mode "explicit"
                              then kpoints_explicit (DataNode cls None []) value
                              else Ok (DataNode cls None []));
                      if py_eq_str mode "automatic" then kpoints_automatic node value
                      else Ok node)) as Hc.
  { intros value.
    assert (compose get_data_class "array.kpoints" [(key, value)] =
            Some <$> _compose_array_kpoints get_data_class "array.kpoints" [(key, value)])
      as -> by reflexivity.
    unfold _compose_array_kpoints, instantiate. rewrite Hcls. simpl.
    rewrite dict_getitem_single. simpl.
    destruct (py_getitem value "mode") as [mode|]; simpl; [|done].
    destruct (py_eq_str mode "explicit"); simpl.
    - destruct (kpoints_explicit _ _); simpl; [|done].
      by destruct (py_eq_str mode "automatic"); simpl; [destruct (kpoints_automatic _ _)|].
    - by destruct (py_eq_str mode "automatic"); simpl; [destruct (kpoints_automatic _ _)|]. }
  split_and!.
  - intros value Hv. rewrite Hc. destruct value; try done. by destruct (Hv d).
  - intros d Hm. rewrite Hc. simpl. unfold dict_getitem. by rewrite Hm.
  - intros d Hm Hp. rewrite Hc. simpl. unfold dict_getitem. rewrite Hm. simpl.
    unfold kpoints_explicit. simpl. by destruct Hp as [-> | ->].
  - intros d Hm Hp. rewrite Hc. simpl. unfold dict_getitem. rewrite Hm. simpl.
    unfold kpoints_explicit. simpl. by rewrite Hp.
Qed.

(** X17. A mode other than ['explicit'] and ['automatic'] is not an
    error: the composer returns a fresh k-points node on which nothing
    has been set. *)
Theorem other_kpoints_mode_sets_nothing cls key value mode :
  get_data_class "array.kpoints" = Ok cls →
  py_getitem value "mode" = Ok mode →
  py_eq_str mode "explicit" = false →
  py_eq_str mode "automatic" = false →
  compose get_data_class "array.kpoints" [(key, value)] = Ok (Some (DataNode cls None [])).
Proof.
  intros Hcls Hmode He Ha.
  assert (compose get_data_class "array.kpoints" [(key, value)] =
          Some <$> _compose_array_kpoints get_data_class "array.kpoints" [(key, value)])
    as -> by reflexivity.
  unfold _compose_array_kpoints, instantiate. rewrite Hcls. simpl.
  rewrite dict_getitem_single. simpl. rewrite Hmode. simpl. by rewrite He, Ha.
Qed.

(** X18. The bands composer needs all three keys: without ["kpoints"] it
    raises a key error at once, and with k-points that compose but without
    ["eigenvalues"] or ["occupancies"] it raises a key error afterwards. *)
Theorem bands_need_all_three_keys cls inputs :
  get_data_class "array.bands" = Ok cls →
  (dict_lookup inputs "kpoints" = None →
     compose get_data_class "array.bands" inputs = Raise KeyError) ∧
  (∀ kpoints kpoints_node,
     dict_lookup inputs "kpoints" = Some kpoints →
     compose get_data_class "array.kpoints" [("kpoints", kpoints)] =
       Ok (Some kpoints_node) →
     dict_lookup inputs "eigenvalues" = None ∨ dict_lookup inputs "occupancies" = None →
     compose get_data_class "array.bands" inputs = Raise KeyError).
Proof.
  intros Hcls.
  assert (compose get_data_class "array.bands" inputs =
          Some <$> _compose_array_bands get_data_class "array.bands" inputs)
    as -> by reflexivity.
  unfold _compose_array_bands, instantiate, dict_getitem. rewrite Hcls. simpl. split.
  - by intros ->.
  - intros kpoints kpoints_node -> Hk Hmissing. simpl.
    assert (compose get_data_class "array.kpoints" [("kpoints", kpoints)] =
            Some <$> _compose_array_kpoints get_data_class "array.kpoints"
                       [("kpoints", kpoints)]) as Hc by reflexivity.
    rewrite Hc in Hk.
    destruct (_compose_array_kpoints get_data_class "array.kpoints" _) as [kp|];
      simpl in *; [|done].
    destruct (dict_lookup inputs "eigenvalues"); simpl.
    + destruct Hmissing as [?| ->]; done.
    + done.
Qed.

(** X19. The bands composer reads the three keys and nothing else: two
    inputs tables that agree on them compose to the same result. *)
Theorem bands_read_three_keys_only inputs1 inputs2 :
  dict_lookup inputs1 "kpoints" = dict_lookup inputs2 "kpoints" →
  dict_lookup inputs1 "eigenvalues" = dict_lookup inputs2 "eigenvalues" →
  dict_lookup inputs1 "occupancies" = dict_lookup inputs2 "occupancies" →
  compose get_data_class "array.bands" inputs1 =
  compose get_data_class "array.bands" inputs2.
Proof.
  intros Hk He Ho.
  assert (∀ inputs, compose get_data_class "array.bands" inputs =
            Some <$> _compose_array_bands get_data_class "array.bands" inputs)
    as Hc by reflexivity.
  rewrite !Hc. unfold _compose_array_bands, dict_getitem. by rewrite Hk, He, Ho.
Qed.

(** X20. When [get_data_class] raises for a supported node type,
    [compose] raises the same and makes no node; the only way around is
    a single-file composer given no inputs at all, which never asks. *)
Theorem missing_data_class_propagates node_type inputs e :
  node_type ∈ supported_tags →
  get_data_class node_type = Raise e →
  inputs ≠ [] ∨ (node_type ≠ "vasp.wavefun" ∧ node_type ≠ "vasp.chargedensity") →
  compose get_data_class node_type inputs = Raise e.
Proof.
  unfold supported_tags. simpl. intros Hin Hcls Hne.
  assert (∀ nt, get_data_class nt = Raise e →
            single_file_loop get_data_class nt inputs (dict_keys inputs) None = Raise e
            ∨ inputs = []) as Hsingle.
  { intros nt Hnt. destruct inputs as [|[k v] rest]; [by right|]. left.
    simpl. unfold dict_getitem. simpl. destruct (decide (k = k)); [|done].
    simpl. unfold instantiate_file. by rewrite Hnt. }
  repeat (apply elem_of_cons in Hin as [->|Hin]);
    try (by apply elem_of_nil in Hin);
    try (solve [ unfold compose; simpl;
                 unfold returning_node, _compose_dict, _compose_array_kpoints,
                   _compose_structure, _compose_array_trajectory, _compose_array_bands,
                   _compose_array, instantiate;
                 by rewrite Hcls ]).
  - destruct (Hsingle "vasp.chargedensity" Hcls) as [H| ->]; [exact H|].
    destruct Hne as [?|[_ ?]]; done.
  - destruct (Hsingle "vasp.wavefun" Hcls) as [H| ->]; [exact H|].
    destruct Hne as [?|[? _]]; done.
Qed.

(** X21. Every node type of [NODES_TYPES] has its composer: the lookup
    of the method succeeds for each of them. *)
Theorem every_node_type_has_a_composer node_type :
  node_type ∈ supported_tags →
  ∃ method, getattr ("_compose_" +:+ str_replace "." "_" node_type) = Ok method.
Proof.
  unfold supported_tags. simpl. intros Hin.
  repeat (apply elem_of_cons in Hin as [->|Hin]); try (by apply elem_of_nil in Hin);
    eexists; reflexivity.
Qed.

End composers_more.

Lemma array_node_receives_every_entry_witness :
  NodeComposer.compose Sample.get_data_class "array"
    (as_tables [("forces", [("forces", PList [PFloat 0%float])]);
                ("stress", [("stress", PList [PFloat 1%float])])]) =
  Ok (Some (DataNode (DataFactory "array") None
              [set_array "forces" (PList [PFloat 0%float]);
               set_array "stress" (PList [PFloat 1%float])])).
Proof.
  refine (array_node_receives_every_entry Sample.get_data_class (DataFactory "array")
            [("forces", [("forces", PList [PFloat 0%float])]);
             ("stress", [("stress", PList [PFloat 1%float])])] _ _).
  - reflexivity.
  - simpl. apply NoDup_cons_2; [|apply NoDup_singleton].
    intros H. apply list_elem_of_singleton in H. discriminate H.
Defined.

Lemma trajectory_symbols_are_an_attribute_witness :
  NodeComposer.compose Sample.get_data_class "array.trajectory"
    (as_tables [("trajectory", [("symbols", PList [PStr "Si"]);
                                ("steps", PList [PInt 0])])]) =
  Ok (Some (DataNode (DataFactory "array.trajectory") None
              [set_attribute "symbols" (PList [PStr "Si"]);
               set_array "steps" (PList [PInt 0])])).
Proof.
  refine (proj1 (trajectory_symbols_are_an_attribute Sample.get_data_class
                   (DataFactory "array.trajectory")
                   [("trajectory", [("symbols", PList [PStr "Si"]);
                                    ("steps", PList [PInt 0])])] _ _)).
  - reflexivity.
  - simpl. apply NoDup_singleton.
Defined.

Lemma structure_node_gets_cell_and_sites_witness :
  NodeComposer.compose Sample.get_data_class "structure"
    [("structure",
      PDict [("unitcell", PList [PFloat 1%float]);
             ("sites", PList [PDict [("position", PList [PFloat 0%float]);
                                     ("symbol", PStr "Si");
                                     ("kind_name", PStr "Si")]])])] =
  Ok (Some (DataNode (DataFactory "structure") None
              [set_cell (PList [PFloat 1%float]);
               append_atom (PList [PFloat 0%float]) (PStr "Si") (PStr "Si")])).
Proof.
  refine (structure_node_gets_cell_and_sites Sample.get_data_class
            (DataFactory "structure") "structure" _ (PList [PFloat 1%float])
            [PDict [("position", PList [PFloat 0%float]); ("symbol", PStr "Si");
                    ("kind_name", PStr "Si")]]
            [append_atom (PList [PFloat 0%float]) (PStr "Si") (PStr "Si")] _ _ _ _).
  - reflexivity.
  - reflexivity.
  - reflexivity.
  - apply Forall2_cons_2; [|apply Forall2_nil_2].
    exists (PList [PFloat 0%float]), (PStr "Si"), (PStr "Si"). by split_and!.
Defined.

Lemma explicit_kpoints_are_listed_witness :
  NodeComposer.compose Sample.get_data_class "array.kpoints"
    [("kpoints",
      PDict [("mode", PStr "explicit");
             ("points", PList [PKpoint [PFloat 0%float] PNone true;
                               PKpoint [PFloat 1%float] (PFloat 1%float) true])])] =
  Ok (Some (DataNode (DataFactory "array.kpoints") None
              [set_kpoints [PList [PFloat 0%float]; PList [PFloat 1%float]] PNone false])).
Proof.
  refine (explicit_kpoints_are_listed Sample.get_data_class (DataFactory "array.kpoints")
            "kpoints" _ ([PFloat 0%float], PNone, true)
            [([PFloat 1%float], PFloat 1%float, true)] _ _ _).
  - reflexivity.
  - reflexivity.
  - reflexivity.
Defined.

Lemma malformed_kpoints_raise_witness :
  NodeComposer.compose Sample.get_data_class "array.kpoints" [("kpoints", PNone)] =
    Raise TypeError.
Proof.
  apply (malformed_kpoints_raise Sample.get_data_class (DataFactory "array.kpoints")
           "kpoints" eq_refl).
  intros d. discriminate.
Defined.

Lemma other_kpoints_mode_sets_nothing_witness :
  NodeComposer.compose Sample.get_data_class "array.kpoints"
    [("kpoints", PDict [("mode", PStr "line")])] =
  Ok (Some (DataNode (DataFactory "array.kpoints") None [])).
Proof.
  apply (other_kpoints_mode_sets_nothing Sample.get_data_class
           (DataFactory "array.kpoints") "kpoints" _ (PStr "line"));
    reflexivity.
Defined.

Lemma bands_need_all_three_keys_witness :
  NodeComposer.compose Sample.get_data_class "array.bands"
    [("kpoints", Sample.mesh222); ("eigenvalues", PList [])] = Raise KeyError.
Proof.
  refine (proj2 (bands_need_all_three_keys Sample.get_data_class
                   (DataFactory "array.bands")
                   [("kpoints", Sample.mesh222); ("eigenvalues", PList [])] eq_refl)
            Sample.mesh222 _ eq_refl eq_refl (or_intror eq_refl)).
Defined.

Lemma bands_read_three_keys_only_witness :
  NodeComposer.compose Sample.get_data_class "array.bands" Sample.bands_inputs =
  NodeComposer.compose Sample.get_data_class "array.bands"
    (("structure", PNone) :: Sample.bands_inputs).
Proof.
  apply (bands_read_three_keys_only Sample.get_data_class Sample.bands_inputs
           (("structure", PNone) :: Sample.bands_inputs)); reflexivity.
Defined.

Lemma missing_data_class_propagates_witness :
  NodeComposer.compose (λ _, Raise MissingEntryPointError) "vasp.wavefun"
    [("wavecar", PStr "WAVECAR")] = Raise MissingEntryPointError.
Proof.
  apply (missing_data_class_propagates (λ _, Raise MissingEntryPointError)
           "vasp.wavefun" [("wavecar", PStr "WAVECAR")] MissingEntryPointError).
  - apply (bool_decide_unpack _). by vm_compute.
  - reflexivity.
  - by left.
Defined.

Lemma every_node_type_has_a_composer_witness :
  ∃ method,
    NodeComposer.getattr ("_compose_" +:+ str_replace "." "_" "array.bands") = Ok method.
Proof.
  apply (every_node_type_has_a_composer "array.bands").
  apply (bool_decide_unpack _). by vm_compute.
Defined.

(** * The selection pass and the collection together *)

Section pipeline.
Context (Q : quantity_module) (registry : ParsableQuantities)
        (parsed : gmap string pyval).

Lemma last_with_entry_exists equivalents e :
  e ∈ equivalents → has_entry parsed e →
  ∃ e', last_with_entry parsed equivalents = Some e'.
Proof.
  intros Hin He. unfold last_with_entry.
  destruct (last (filter (has_entry parsed) equivalents)) as [e'|] eqn:Hl; [eauto|].
  apply last_None in Hl.
  assert (e ∈ filter (has_entry parsed) equivalents) as Hf by by apply list_elem_of_filter.
  rewrite Hl in Hf. by apply elem_of_nil in Hf.
Qed.

(** X22. The two passes fit: when the table has an entry only for the
    name that the selection pass chooses for a requested name, collecting
    that requested name gives exactly the entry's value under the
    quantity's output key. Whether the first or the last equivalent is
    taken makes no difference then. *)
Theorem scheduled_quantity_is_collected node_type quantity_name quantity scheduled value :
  get_by_name registry quantity_name = Some quantity →
  chosen registry quantity_name = [scheduled] →
  (∀ key, is_Some (parsed !! key) → key = scheduled) →
  parsed !! scheduled = Some value →
  get_node_composer_inputs Q registry parsed None node_type (Some [quantity_name]) =
    Ok [(name quantity, value)].
Proof.
  intros Hq Hc Hdom Hv.
  unfold get_node_composer_inputs, _collect_quantity_data. simpl.
  rewrite collect_quantity_contribution, Hq. simpl.
  assert (parsed_get parsed scheduled = value) as Hget
    by (unfold parsed_get; by rewrite Hv).
  assert (contribution registry parsed quantity_name = Some value) as ->; [|done].
  unfold contribution.
  destruct (is_none (parsed_get parsed quantity_name)) eqn:Hnone.
  - unfold chosen in Hc. rewrite Hq in Hc.
    destruct (List.find is_parsable (get_equivalent_quantities registry quantity_name))
      as [e|] eqn:He; [|done].
    apply List.find_some in He as [He _]. apply list_elem_of_In in He.
    assert (has_entry parsed e) as Hentry.
    { unfold has_entry. injection Hc as ->. eauto. }
    destruct (last_with_entry_exists _ e He Hentry) as [e' He'].
    rewrite He'. simpl. apply last_with_entry_Some in He' as [_ He'].
    by rewrite (Hdom _ He'), Hget.
  - assert (is_Some (parsed !! quantity_name)) as Hs.
    { unfold parsed_get in Hnone. destruct (parsed !! quantity_name); [eauto | done]. }
    by rewrite (Hdom _ Hs), Hget.
Qed.

End pipeline.

Lemma scheduled_quantity_is_collected_witness :
  get_node_composer_inputs Sample.registry_builder Sample.registry
    {[ "poscar-structure" := PStr "from POSCAR" ]} None "structure" (Some ["structure"]) =
  Ok [("structure", PStr "from POSCAR")].
Proof.
  refine (scheduled_quantity_is_collected Sample.registry_builder Sample.registry
            {[ "poscar-structure" := PStr "from POSCAR" ]} "structure" "structure"
            Sample.structure "poscar-structure" (PStr "from POSCAR") _ _ _ _).
  - reflexivity.
  - reflexivity.
  - intros key [v Hv]. apply lookup_singleton_Some in Hv as [<- _]. done.
  - reflexivity.
Defined.

(** * Malformed inputs of the array and structure composers *)

Section malformed.
Import NodeComposer.
Context (get_data_class : data_class_getter).

(** A loop over the keys of [inputs] whose body asks for the items of
    each value raises when one value has none. *)
Lemma items_loop_raises (inner : data_node → string * pyval → result data_node)
    (inputs : pydict) keys key value n :
  (∀ m kv, ∃ m', inner m kv = Ok m') →
  NoDup (dict_keys inputs) →
  keys ⊆ dict_keys inputs →
  key ∈ keys → (key, value) ∈ inputs → (∀ d, value ≠ PDict d) →
  for_each (λ node item,
      value ← dict_getitem inputs item;
      items ← py_items value;
      for_each inner items node) keys n = Raise AttributeError.
Proof.
  intros Hinner Hnd Hsub Hin Hkv Hv. revert n.
  induction keys as [|x keys IH]; intros n; [by apply elem_of_nil in Hin|].
  simpl.
  assert (x ∈ dict_keys inputs) as Hx by (apply Hsub; by left).
  apply list_elem_of_fmap in Hx as ([x' v] & -> & Hxv). simpl.
  simpl in Hin, Hsub.
  assert (dict_getitem inputs x' = Ok v) as ->
    by (unfold dict_getitem; by rewrite (dict_lookup_elem_of _ _ _ Hnd Hxv)).
  simpl. destruct (decide (x' = key)) as [->|Hne].
  - assert (v = value) as ->.
    { pose proof (dict_lookup_elem_of _ _ _ Hnd Hxv) as H1.
      pose proof (dict_lookup_elem_of _ _ _ Hnd Hkv) as H2. congruence. }
    destruct value; try done. by destruct (Hv d).
  - assert (key ∈ keys) as Hin' by (apply elem_of_cons in Hin as [?|?]; congruence).
    assert (keys ⊆ dict_keys inputs) as Hsub' by (intros y Hy; apply Hsub; by right).
    destruct v; simpl; try done.
    assert (∀ items m, ∃ m', for_each inner items m = Ok m') as Htotal.
    { induction items as [|kv items IHi]; intros m; simpl; [eauto|].
      destruct (Hinner m kv) as [m' ->]. simpl. apply IHi. }
    destruct (Htotal d n) as [m' ->]. simpl. by apply IH.
Qed.

(** X23. The array and the trajectory composer raise an attribute error
    as soon as one value of the inputs is no dictionary, [None] included:
    such a value has no [items]. *)
Theorem array_composers_need_dictionaries cls node_type inputs key value :
  node_type = "array" ∨ node_type = "array.trajectory" →
  get_data_class node_type = Ok cls →
  NoDup (dict_keys inputs) →
  (key, value) ∈ inputs →
  (∀ d, value ≠ PDict d) →
  compose get_data_class node_type inputs = Raise AttributeError.
Proof.
  intros Htype Hcls Hnd Hkv Hv.
  assert (key ∈ dict_keys inputs) as Hkey
    by (apply list_elem_of_fmap; by exists (key, value)).
  destruct Htype as [-> | ->].
  - assert (compose get_data_class "array" inputs =
            Some <$> _compose_array get_data_class "array" inputs) as -> by reflexivity.
    unfold _compose_array, instantiate. rewrite Hcls. simpl.
    rewrite (items_loop_raises _ inputs _ key value); try done.
    intros m kv. eauto.
  - assert (compose get_data_class "array.trajectory" inputs =
            Some <$> _compose_array_trajectory get_data_class "array.trajectory" inputs)
      as -> by reflexivity.
    unfold _compose_array_trajectory, instantiate. rewrite Hcls. simpl.
    rewrite (items_loop_raises _ inputs _ key value); try done.
    intros m kv. destruct (decide (kv.1 = "symbols")); eauto.
Qed.

(** X24. What the structure composer raises on a malformed input: a type
    error for a value that is no dictionary, [None] included, and a key
    error for a dictionary without ["unitcell"] or without ["sites"]. *)
Theorem malformed_structure_raises cls key :
  get_data_class "structure" = Ok cls →
  (∀ value, (∀ d, value ≠ PDict d) →
     compose get_data_class "structure" [(key, value)] = Raise TypeError) ∧
  (∀ d, dict_lookup d "unitcell" = None ∨ dict_lookup d "sites" = None →
     compose get_data_class "structure" [(key, PDict d)] = Raise KeyError).
Proof.
  intros Hcls.
  assert (∀ value, compose get_data_class "structure" [(key, value)] =
            Some <$> _compose_structure get_data_class "structure" [(key, value)])
    as Hc by reflexivity.
  split.
  - intros value Hv. rewrite Hc. unfold _compose_structure, instantiate.
    rewrite Hcls. simpl. rewrite dict_getitem_single. simpl.
    destruct value; try done. by destruct (Hv d).
  - intros d Hmissing. rewrite Hc. unfold _compose_structure, instantiate.
    rewrite Hcls. simpl. rewrite dict_getitem_single. simpl. unfold dict_getitem.
    destruct (dict_lookup d "unitcell"); simpl; [|done].
    destruct Hmissing as [?| ->]; done.
Qed.

End malformed.

Lemma array_composers_need_dictionaries_witness :
  NodeComposer.compose Sample.get_data_class "array.trajectory" [("trajectory", PNone)] =
    Raise AttributeError.
Proof.
  apply (array_composers_need_dictionaries Sample.get_data_class
           (DataFactory "array.trajectory") "array.trajectory"
           [("trajectory", PNone)] "trajectory" PNone).
  - by right.
  - reflexivity.
  - simpl. apply NoDup_singleton.
  - by left.
  - intros d. discriminate.
Defined.

Lemma malformed_structure_raises_witness :
  NodeComposer.compose Sample.get_data_class "structure" [("structure", PNone)] =
    Raise TypeError.
Proof.
  apply (malformed_structure_raises Sample.get_data_class (DataFactory "structure")
           "structure" eq_refl).
  intros d. discriminate.
Defined.
